(** * Order pricing and order status transitions of the order service

    A shallow embedding of the two route handlers of [src/index.js] that
    carry the business rules: [app.post("/orders")] (order creation and
    pricing) and [app.put("/orders/:id/status")] (status transition and
    bill emission), together with the Sequelize models they use, and of
    the handlers that read, list or clear a table.

    Conventions.
    - The database is an explicit [store] threaded through the handlers;
      a handler is a function from the request and the store to a
      response and the new store.
    - JavaScript numbers are doubles.  The integer-valued quantities
      (identifiers, prices, weights and their sums) are modelled as [Z]:
      sums of [INTEGER] columns stay far below 2^53, where doubles are
      exact, and the quotient by 10 cannot be rounded across a
      half-integer.  The other numbers are modelled as the rationals [Q]
      they are; the one product that is not whole, the total by [0.95],
      is rounded to the nearest double as IEEE 754 asks.
    - [Joi.number()] and [parseInt] are library functions whose behaviour
      on strings is not fixed by this repository: the handlers are
      parameterised by them. *)

From Stdlib Require Import ZArith QArith Qround Qabs Qpower.
From Stdlib Require Import List String Bool Lia Lqa.
From Stdlib Require Import Permutation Sorted.
From Stdlib Require SpecFloat.
Import ListNotations.
Open Scope string_scope.
Open Scope list_scope.
Open Scope Z_scope.

(** ** Request bodies *)

(** The value [bodyParser.json()] leaves in [req.body]. *)
#[local] Unset Elimination Schemes.
Inductive json : Type :=
| JNull
| JBool (b : bool)
| JNum (n : Q)
| JStr (s : string)
| JArr (items : list json)
| JObj (fields : list (string * json)).
#[local] Set Elimination Schemes.

(** Own property [k] of an object; [None] is [undefined]. *)
Fixpoint lookup (k : string) (fields : list (string * json)) : option json :=
  match fields with
  | [] => None
  | (k', v) :: rest => if String.eqb k k' then Some v else lookup k rest
  end.

(** [body.k] for a parsed body: arrays and primitives have no such
    property. *)
Definition prop (k : string) (body : json) : option json :=
  match body with
  | JObj fields => lookup k fields
  | _ => None
  end.

(** ** Models *)

Module Product.
(** [sequelize.define("product", { name, price, weight })] *)
Record t := { id : Z; name : string; price : Z; weight : Z }.

(** [Product.findAll({ where: { id: { [Op.in]: ids } } })]: the rows whose
    key is one of [ids]; [None] stands for [NaN], which matches no key. *)
Definition findAll_in (ids : list (option Z)) (rows : list t) : list t :=
  filter
    (fun p => existsb
                (fun i => match i with Some k => id p =? k | None => false end)
                ids)
    rows.
End Product.

Module Order.
(** [sequelize.define("order", { status, shipment_amount, total_amount,
    total_weight })]; [None] in a column is [NULL].  The timestamps that
    Sequelize adds to every row are left out. *)
Record t := {
  id : Z;
  status : string;
  shipment_amount : Z;
  total_amount : option Q;
  total_weight : option Z
}.

(** The object handed to [Order.create]; [None] is a key that is
    absent. *)
Record values := {
  v_status : option string;
  v_shipment_amount : option Z;
  v_total_amount : option Q;
  v_total_weight : option Z;
  v_product_list : option json
}.

Record table := { rows : list t; next_id : Z }.

Definition default {A} (d : A) (v : option A) : A :=
  match v with Some x => x | None => d end.

(** [Order.create(values)]: a row with a fresh key; a declared column takes
    the value given for it, or its [defaultValue] when none is given.
    [product_list] is not a column of the model. *)
Definition create (v : values) (tb : table) : t * table :=
  let o := {| id := next_id tb;
              status := default "pending" (v_status v);
              shipment_amount := default 25 (v_shipment_amount v);
              total_amount := v_total_amount v;
              total_weight := v_total_weight v |} in
  (o, {| rows := rows tb ++ [o]; next_id := next_id tb + 1 |}).

(** [Order.findById(id)] *)
Definition findById (k : Z) (tb : table) : option t :=
  find (fun o => id o =? k) (rows tb).

Definition set_status (s : string) (o : t) : t :=
  {| id := id o; status := s; shipment_amount := shipment_amount o;
     total_amount := total_amount o; total_weight := total_weight o |}.

(** [order.update({ status })] *)
Definition update_status (o : t) (s : string) (tb : table) : table :=
  {| rows := map (fun r => if id r =? id o then set_status s r else r)
                 (rows tb);
     next_id := next_id tb |}.

Definition opt_num {A} (f : A -> Q) (v : option A) : json :=
  match v with Some x => JNum (f x) | None => JNull end.

(** [order.toJSON()]: the plain object of the row's columns, without
    the timestamps. *)
Definition toJSON (o : t) : list (string * json) :=
  [ ("id", JNum (inject_Z (id o)));
    ("status", JStr (status o));
    ("shipment_amount", JNum (inject_Z (shipment_amount o)));
    ("total_amount", opt_num (fun q => q) (total_amount o));
    ("total_weight", opt_num inject_Z (total_weight o)) ].
End Order.

Module Bill.
(** [sequelize.define("bill", { total_amount })] *)
Record t := { id : Z; total_amount : option Q }.

Record table := { rows : list t; next_id : Z }.

(** [Bill.create({ total_amount })] *)
Definition create (amount : option Q) (tb : table) : table :=
  {| rows := rows tb ++ [{| id := next_id tb; total_amount := amount |}];
     next_id := next_id tb + 1 |}.
End Bill.

Record store := {
  products : list Product.t;
  orders : Order.table;
  bills : Bill.table
}.

(** ** Responses *)

(** One entry of [error.details] of a failed [Joi.validate]. *)
Inductive joi_key := Key (k : string) | Index (i : nat).
Inductive joi_detail := Joi_error (type : string) (key : joi_key).

(** One entry of the [data] array of a 400 response. *)
Inductive detail :=
| From_joi (d : joi_detail)                   (* [{ message, context }] of a Joi detail *)
| Literal (message : string) (key : string).  (* [{ message, context: { key } }] *)

Inductive response :=
| Created (location : Z)                      (* 201, [Location: /orders/<id>] *)
| Ok                                          (* 200 *)
| Bad_request (data : option (list detail))   (* 400, with [{ data }] or no body *)
| Not_found                                   (* 404 *)
| Thrown.                                     (* the handler throws: no response *)

(** ** Doubles *)

(** [x] rounded to the nearest integer, a tie going to the even one. *)
Definition round_half_even (x : Q) : Z :=
  let f := Qfloor x in
  match Qcompare (x - inject_Z f) (1 # 2) with
  | Lt => f
  | Gt => f + 1
  | Eq => if Z.even f then f else f + 1
  end.

(** The exponent of the last of the 53 bits of the doubles around [x]:
    the integer part of the binary logarithm of [|x|], less 52. *)
Definition binary64_exponent (x : Q) : Z :=
  (if Qle_bool 1 (Qabs x)
   then Z.log2 (Qfloor (Qabs x))
   else - Z.log2_up (Qceiling (/ Qabs x))) - 52.

(** The double nearest to [x], a tie going to the even one (IEEE 754
    binary64, round to nearest even), between the subnormal numbers and
    the overflow threshold. *)
Definition binary64 (x : Q) : Q :=
  let u := (2 ^ binary64_exponent x)%Q in
  (inject_Z (round_half_even (x / u)) * u)%Q.

(** [a * b] on two doubles: the product, rounded to the nearest
    double. *)
Definition times (a b : Q) : Q := binary64 (a * b).

(** The same product by the reference implementation of the Standard
    Library, for a whole [a]. *)
Module Reference.
Definition value (f : SpecFloat.spec_float) : Q :=
  match f with
  | SpecFloat.S754_finite s m e =>
      ((if s then -1 else 1) * inject_Z (Zpos m) * 2 ^ e)%Q
  | _ => 0%Q
  end.

Definition of_Z (z : Z) : SpecFloat.spec_float :=
  SpecFloat.binary_normalize 53 1024 z 0 false.

(** [0x1.e666666666666p-1], the double that [0.95] denotes *)
Definition ratio : SpecFloat.spec_float :=
  SpecFloat.binary_normalize 53 1024 8556839292003942 (-53) false.

Definition times_ratio (a : Z) : Q :=
  value (SpecFloat.SFmul 53 1024 (of_Z a) ratio).

Fixpoint range (n : nat) (from : Z) : list Z :=
  match n with
  | O => []
  | S k => from :: range k (from + 1)
  end.
End Reference.

Arguments binary64 : simpl never.
Arguments times : simpl never.

(** ** Pricing: the constants and expressions of [app.post("/orders")] *)

(** [Math.round]: the nearest integer, a tie going up. *)
Definition Math_round (x : Q) : Z := Qfloor (x + (1 # 2)).

Definition Qgt_bool (x y : Q) : bool := negb (Qle_bool x y).

Definition SHIPMENT_PRICE_STEP : Z := 25.
Definition SHIPMENT_WEIGHT_STEP : Z := 10.
Definition DISCOUNT_THRESHOLD : Z := 1000.
(** [0.95]: the double that the literal denotes. *)
Definition DISCOUNT_RATIO : Q := binary64 0.95.

Definition orderTotalWeight (productListData : list Product.t) : Z :=
  fold_left (fun prev cur => prev + cur)
            (map Product.weight productListData) 0.

Definition orderProductListPrice (productListData : list Product.t) : Z :=
  fold_left (fun prev cur => prev + cur)
            (map Product.price productListData) 0.

Definition orderShipmentPrice (productListData : list Product.t) : Z :=
  SHIPMENT_PRICE_STEP *
  Math_round (inject_Z (orderTotalWeight productListData)
              / inject_Z SHIPMENT_WEIGHT_STEP).

Definition totalAmount (productListData : list Product.t) : Q :=
  let totalAmount :=
    inject_Z (orderProductListPrice productListData
              + orderShipmentPrice productListData) in
  if Qgt_bool totalAmount (inject_Z DISCOUNT_THRESHOLD)
  then times totalAmount DISCOUNT_RATIO
  else totalAmount.

(** [Object.assign({ total_amount, shipment_amount, total_weight },
    { product_list: req.body.product_list })] *)
Definition orderData (product_list : json) (productListData : list Product.t)
  : Order.values :=
  {| Order.v_status := None;
     Order.v_shipment_amount := Some (orderShipmentPrice productListData);
     Order.v_total_amount := Some (totalAmount productListData);
     Order.v_total_weight := Some (orderTotalWeight productListData);
     Order.v_product_list := Some product_list |}.

(** ** Handlers *)

Section Handlers.

(** Whether [Joi.number()] accepts a value. *)
Variable Joi_number : json -> bool.

(** [parseInt(value, radix)]; [None] is [NaN]. *)
Variable parseInt : json -> Z -> option Z.

(** The items of an array against [.items(Joi.number())], all of them
    ([abortEarly: false]). *)
Fixpoint items_errors (i : nat) (items : list json) : list joi_detail :=
  match items with
  | [] => []
  | x :: rest =>
      (if Joi_number x then [] else [Joi_error "number.base" (Index i)])
      ++ items_errors (S i) rest
  end.

(** [Joi.validate(req.body, orderSchema, { abortEarly: false })] with

    [orderSchema = Joi.object().keys({
       product_list: Joi.array().items(Joi.number()).required() })]:

    the details of the error, [[]] when there is none.  A [product_list]
    that is not an array is answered [array.base]; the conversion that
    Joi attempts on a string holding a JSON array is not modelled. *)
Definition validate_orderSchema (body : json) : list joi_detail :=
  match body with
  | JObj fields =>
      match lookup "product_list" fields with
      | None => [Joi_error "any.required" (Key "product_list")]
      | Some (JArr items) => items_errors 0 items
      | Some _ => [Joi_error "array.base" (Key "product_list")]
      end
      ++ map (fun kv => Joi_error "object.allowUnknown" (Key (fst kv)))
             (filter (fun kv => negb (String.eqb (fst kv) "product_list"))
                     fields)
  | _ => [Joi_error "object.base" (Key "value")]
  end.

(** [req.body.product_list.map(id => parseInt(id, 0))] *)
Definition coerced (product_list : list json) : list (option Z) :=
  map (fun id => parseInt id 0) product_list.

(** [await Product.findAll({ where: { id: { [Op.in]: ... } } })] *)
Definition productList (product_list : list json) (st : store)
  : list Product.t :=
  Product.findAll_in (coerced product_list) (products st).

(** [app.post("/orders", ...)] *)
Definition post_orders (body : json) (st : store) : response * store :=
  match validate_orderSchema body with
  | (_ :: _) as details => (Bad_request (Some (map From_joi details)), st)
  | [] =>
      match prop "product_list" body with
      | Some (JArr product_list) =>
          let productList := productList product_list st in
          if (List.length productList =? 0)%nat then
            (Bad_request (Some [Literal "Unknown products" "product_list"]),
             st)
          else
            let productListData := productList in
            let (order, tb) :=
              Order.create (orderData (JArr product_list) productListData)
                           (orders st) in
            (Created (Order.id order),
             {| products := products st; orders := tb; bills := bills st |})
      | _ => (Thrown, st)
      end
  end.

(** [["pending", "paid", "cancelled"].includes(status)] *)
Definition includes (l : list string) (status : string) : bool :=
  existsb (String.eqb status) l.

(** [app.put("/orders/:id/status", ...)].  The route parameter is taken
    as the key it denotes.  [Bill.create] is not awaited; its row is taken
    as written by the time the handler answers. *)
Definition put_order_status (id : Z) (body : json) (st : store)
  : response * store :=
  match Order.findById id (orders st) with
  | None => (Not_found, st)
  | Some order =>
      match prop "status" body with
      | Some (JStr status) =>
          if negb (includes ["pending"; "paid"; "cancelled"] status) then
            (Bad_request None, st)
          else
            let bills1 :=
              if String.eqb status "paid"
              then Bill.create (Order.total_amount order) (bills st)
              else bills st in
            (Ok,
             {| products := products st;
                orders := Order.update_status order status (orders st);
                bills := bills1 |})
      | _ => (Bad_request None, st)
      end
  end.

End Handlers.

(** An instance of the two library functions, for integers written as
    numbers or as strings of decimal digits. *)
Module Decimal.
Definition digit (c : Ascii.ascii) : option Z :=
  let n := Z.of_nat (Ascii.nat_of_ascii c) in
  if (48 <=? n) && (n <=? 57) then Some (n - 48) else None.

Fixpoint digits (acc : Z) (s : string) : option Z :=
  match s with
  | EmptyString => Some acc
  | String c rest =>
      match digit c with
      | Some d => digits (10 * acc + d) rest
      | None => None
      end
  end.

Definition of_string (s : string) : option Z :=
  match s with
  | EmptyString => None
  | _ => digits 0 s
  end.

Definition Joi_number (v : json) : bool :=
  match v with
  | JNum _ => true
  | JStr s => match of_string s with Some _ => true | None => false end
  | _ => false
  end.

Definition parseInt (v : json) (radix : Z) : option Z :=
  match v with
  | JNum n => Some (Z.quot (Qnum n) (Zpos (Qden n)))
  | JStr s => of_string s
  | _ => None
  end.
End Decimal.

(** ** Specification vocabulary *)

(** The sum of a list of integers. *)
Definition sum (l : list Z) : Z := fold_right Z.add 0 l.

(** [n] is [x] rounded to the nearest integer, a tie going up. *)
Definition round_half_up (x : Q) (n : Z) : Prop :=
  (inject_Z n - (1 # 2) <= x)%Q /\ (x < inject_Z n + (1 # 2))%Q.

(** The line items a request resolves to in the catalog. *)
Definition resolved (parseInt : json -> Z -> option Z)
           (body : json) (st : store) : list Product.t :=
  match prop "product_list" body with
  | Some (JArr product_list) => productList parseInt product_list st
  | _ => []
  end.

(** The store after one more order [o]. *)
Definition with_order (o : Order.t) (st : store) : store :=
  {| products := products st;
     orders := {| Order.rows := Order.rows (orders st) ++ [o];
                  Order.next_id := Order.next_id (orders st) + 1 |};
     bills := bills st |}.

(** The 400 answers of order creation. *)
Definition ValidationError (r : response) : Prop :=
  exists d ds, r = Bad_request (Some (map From_joi (d :: ds))).

Definition UnknownReferenceError (r : response) : Prop :=
  r = Bad_request (Some [Literal "Unknown products" "product_list"]).

(** The row a request yields when it passes every check. *)
Definition new_order (parseInt : json -> Z -> option Z)
           (body : json) (st : store) : Order.t :=
  let productListData := resolved parseInt body st in
  {| Order.id := Order.next_id (orders st);
     Order.status := "pending";
     Order.shipment_amount := orderShipmentPrice productListData;
     Order.total_amount := Some (totalAmount productListData);
     Order.total_weight := Some (orderTotalWeight productListData) |}.

(** The three values a transition may ask for. *)
Definition statuses : list string := ["pending"; "paid"; "cancelled"].

(** The [status] of the body is one of the three recognized strings. *)
Definition recognized (status : option json) : Prop :=
  exists s, status = Some (JStr s) /\ In s statuses.

(** The store a transition to [s] leaves behind. *)
Definition transitioned (o : Order.t) (s : string) (st : store) : store :=
  {| products := products st;
     orders := Order.update_status o s (orders st);
     bills := if String.eqb s "paid"
              then Bill.create (Order.total_amount o) (bills st)
              else bills st |}.

(** ** Sample data *)

Definition chair : Product.t :=
  {| Product.id := 1; Product.name := "chair";
     Product.price := 100; Product.weight := 5 |}.

Definition voucher : Product.t :=
  {| Product.id := 2; Product.name := "voucher";
     Product.price := 1001; Product.weight := 0 |}.

Definition shop : store :=
  {| products := [chair; voucher];
     orders := {| Order.rows := []; Order.next_id := 1 |};
     bills := {| Bill.rows := []; Bill.next_id := 1 |} |}.

Definition order_of (ids : list json) : json :=
  JObj [("product_list", JArr ids)].

Definition paying : json := JObj [("status", JStr "paid")].

Definition ledger : store :=
  {| products := [chair];
     orders := {| Order.rows :=
                    [{| Order.id := 1; Order.status := "paid";
                        Order.shipment_amount := 25;
                        Order.total_amount := Some 125%Q;
                        Order.total_weight := Some 5 |}];
                  Order.next_id := 2 |};
     bills := {| Bill.rows := [{| Bill.id := 1;
                                  Bill.total_amount := Some 125%Q |}];
                 Bill.next_id := 2 |} |}.

(** ** The handlers that read or clear a table *)

(** The answer of a handler that reads or clears a table. *)
Inductive reply :=
| Json (body : json)   (* 200 with a JSON body *)
| Missing              (* 404 *)
| No_content.          (* 204 *)

(** [app.get("/orders/:id", ...)] *)
Definition get_order (id : Z) (st : store) : reply :=
  match Order.findById id (orders st) with
  | None => Missing
  | Some order => Json (JObj (Order.toJSON order))
  end.

(** [app.delete("/orders", ...)]: every row found is destroyed.  The
    [destroy] calls are not awaited; the rows are taken as gone by the
    time the handler answers.  Keys are not handed out again. *)
Definition delete_orders (st : store) : reply * store :=
  (No_content,
   {| products := products st;
      orders := {| Order.rows := [];
                   Order.next_id := Order.next_id (orders st) |};
      bills := bills st |}).

(** [bill.toJSON()], without the timestamps *)
Definition Bill_toJSON (b : Bill.t) : list (string * json) :=
  [ ("id", JNum (inject_Z (Bill.id b)));
    ("total_amount", Order.opt_num (fun q => q) (Bill.total_amount b)) ].

(** [app.get("/bills", ...)] *)
Definition get_bills (st : store) : reply :=
  Json (JArr (map (fun b => JObj (Bill_toJSON b)) (Bill.rows (bills st)))).

(** [app.delete("/bills", ...)] *)
Definition delete_bills (st : store) : reply * store :=
  (No_content,
   {| products := products st;
      orders := orders st;
      bills := {| Bill.rows := [];
                  Bill.next_id := Bill.next_id (bills st) |} |}).

(** [product.toJSON()], without the timestamps.  [orderId] is the column
    that [Order.hasMany(Product)] adds; nothing ever sets it. *)
Definition Product_toJSON (p : Product.t) : list (string * json) :=
  [ ("id", JNum (inject_Z (Product.id p)));
    ("name", JStr (Product.name p));
    ("price", JNum (inject_Z (Product.price p)));
    ("weight", JNum (inject_Z (Product.weight p)));
    ("orderId", JNull) ].

(** [Product.findById(id)] *)
Definition Product_findById (k : Z) (rows : list Product.t)
  : option Product.t :=
  find (fun p => Product.id p =? k) rows.

(** [app.get("/products/:id", ...)] *)
Definition get_product (id : Z) (st : store) : reply :=
  match Product_findById id (products st) with
  | None => Missing
  | Some product => Json (JObj (Product_toJSON product))
  end.

(** [app.delete("/products", ...)] *)
Definition delete_products (st : store) : reply * store :=
  (No_content,
   {| products := []; orders := orders st; bills := bills st |}).

(** ** The service as a machine *)

(** The requests on orders and bills, and the clearing of the catalog.
    [POST /products], which adds to the catalog, is not among them. *)
Inductive request :=
| POST_orders (body : json)
| PUT_orders_status (id : Z) (body : json)
| DELETE_orders
| DELETE_bills
| DELETE_products.

(** The store one request leaves behind. *)
Definition step (Joi_number : json -> bool)
           (parseInt : json -> Z -> option Z)
           (st : store) (r : request) : store :=
  match r with
  | POST_orders body => snd (post_orders Joi_number parseInt body st)
  | PUT_orders_status id body => snd (put_order_status id body st)
  | DELETE_orders => snd (delete_orders st)
  | DELETE_bills => snd (delete_bills st)
  | DELETE_products => snd (delete_products st)
  end.

(** The store a sequence of requests leaves behind. *)
Definition run (Joi_number : json -> bool)
           (parseInt : json -> Z -> option Z)
           (rs : list request) (st : store) : store :=
  fold_left (step Joi_number parseInt) rs st.

(** The store right after [sequelize.sync] on an empty database that
    numbers its rows from 1, with a catalog put in. *)
Definition opened (catalog : list Product.t) : store :=
  {| products := catalog;
     orders := {| Order.rows := []; Order.next_id := 1 |};
     bills := {| Bill.rows := []; Bill.next_id := 1 |} |}.

(** ** Vocabulary of the further properties *)

(** Keys are unique and below the next key to hand out. *)
Definition keys_ok (ids : list Z) (next : Z) : Prop :=
  NoDup ids /\ forall k, In k ids -> k < next.

Definition consistent (st : store) : Prop :=
  keys_ok (map Order.id (Order.rows (orders st)))
          (Order.next_id (orders st)) /\
  keys_ok (map Bill.id (Bill.rows (bills st)))
          (Bill.next_id (bills st)).

(** What every order written by the handlers looks like: a recognized
    status, both totals present, and a shipment amount that is the price
    step times the rounded tenth of the weight. *)
Definition priced (o : Order.t) : Prop :=
  In (Order.status o) statuses /\
  Order.total_amount o <> None /\
  exists w, Order.total_weight o = Some w /\
            Order.shipment_amount o = 25 * ((w + 5) / 10).

(** The requests of a sequence that add a bill: the transitions to
    ["paid"] that are answered 200. *)
Fixpoint paid_count (Joi_number : json -> bool)
         (parseInt : json -> Z -> option Z)
         (rs : list request) (st : store) : nat :=
  match rs with
  | [] => 0%nat
  | r :: rest =>
      (match r with
       | PUT_orders_status id body =>
           match put_order_status id body st, prop "status" body with
           | (Ok, _), Some (JStr "paid") => 1%nat
           | _, _ => 0%nat
           end
       | _ => 0%nat
       end
       + paid_count Joi_number parseInt rest (step Joi_number parseInt st r))%nat
  end.

(** The combined price of the items and the shipment, before any
    discount. *)
Definition combined (data : list Product.t) : Z :=
  orderProductListPrice data + orderShipmentPrice data.

(** ** More sample data *)

Definition desk : Product.t :=
  {| Product.id := 3; Product.name := "desk";
     Product.price := 1000; Product.weight := 0 |}.

Definition session : list request :=
  [ POST_orders (order_of [JNum 1]);
    PUT_orders_status 1 paying;
    PUT_orders_status 1 (JObj [("status", JStr "shipped")]);
    PUT_orders_status 1 paying;
    DELETE_orders;
    POST_orders (order_of [JStr "1"; JNum 2]) ].

(** Every bill carries the total amount of some stored order. *)
Definition billed (st : store) : Prop :=
  forall b, In b (Bill.rows (bills st)) ->
  exists o, In o (Order.rows (orders st)) /\
            Order.total_amount o = Bill.total_amount b.

(** ** The listings *)


Inductive order_attribute :=
| Order_id | Order_status | Order_shipment_amount
| Order_total_amount | Order_total_weight.

(** [ToNumber] of a column value that may be [null]: [null] counts
    as 0. *)
Definition number {A} (f : A -> Q) (v : option A) : Q :=
  match v with Some x => f x | None => 0%Q end.


(** [a[sort] < b[sort]] on two orders. *)
Definition order_lt (sort : option order_attribute)
           (a b : Order.t) : bool :=
  match sort with
  | Some Order_id => Order.id a <? Order.id b
  | Some Order_status => String.ltb (Order.status a) (Order.status b)
  | Some Order_shipment_amount =>
      Order.shipment_amount a <? Order.shipment_amount b
  | Some Order_total_amount =>
      Qgt_bool (number (fun q => q) (Order.total_amount b))
               (number (fun q => q) (Order.total_amount a))
  | Some Order_total_weight =>
      Qgt_bool (number inject_Z (Order.total_weight b))
               (number inject_Z (Order.total_weight a))
  | None => false
  end.

(** The function both listings hand to [sort]:

    [(a, b) => { if (a[sort] < b[sort]) return -1;
                 if (a[sort] > b[sort]) return 1;
                 return 0; }] *)
Definition by_attribute {A} (lt : A -> A -> bool) (a b : A) : Z :=
  if lt a b then -1 else if lt b a then 1 else 0.

Section Listings.

(** [Array.prototype.sort], which the language leaves to the engine. *)
Variable Array_sort : forall A : Type, (A -> A -> Z) -> list A -> list A.


(** [app.get("/orders", ...)] *)
Definition get_orders (sort : option order_attribute) (st : store)
  : reply :=
  let orderList := Order.rows (orders st) in
  let orderList := Array_sort _ (by_attribute (order_lt sort)) orderList in
  Json (JArr (map (fun o => JObj (Order.toJSON o)) orderList)).

End Listings.

(** A comparison function that [sort] can rely on, as ECMAScript has
    it. *)
Definition consistent_comparator {A} (cmp : A -> A -> Z) : Prop :=
  (forall a, cmp a a = 0) /\
  (forall a b, cmp a b = 0 -> cmp b a = 0) /\
  (forall a b c, cmp a b = 0 -> cmp b c = 0 -> cmp a c = 0) /\
  (forall a b c, cmp a b < 0 -> cmp b c < 0 -> cmp a c < 0) /\
  (forall a b c, cmp a b > 0 -> cmp b c > 0 -> cmp a c > 0) /\
  (forall a b, cmp a b < 0 <-> cmp b a > 0).

(** What ECMAScript asks of [sort] when the comparison function is
    consistent: the result holds the same elements, and none of them
    comes before one it compares greater than. *)
Definition sorts (Array_sort : forall A : Type,
                     (A -> A -> Z) -> list A -> list A) : Prop :=
  forall (A : Type) (cmp : A -> A -> Z) (l : list A),
    consistent_comparator cmp ->
    Permutation l (Array_sort A cmp l) /\
    StronglySorted (fun a b => ~ cmp b a < 0) (Array_sort A cmp l).

(** An engine: the insertion sort, which keeps equal elements in their
    order. *)
Module Insertion.
Fixpoint insert {A} (cmp : A -> A -> Z) (x : A) (l : list A) : list A :=
  match l with
  | [] => [x]
  | y :: rest =>
      if cmp x y <? 0 then x :: y :: rest else y :: insert cmp x rest
  end.

Definition sort (A : Type) (cmp : A -> A -> Z) (l : list A) : list A :=
  fold_left (fun sorted x => insert cmp x sorted) l [].
End Insertion.

(** A strict weak order, as a boolean test. *)
Definition strict_weak {A} (lt : A -> A -> bool) : Prop :=
  (forall a, lt a a = false) /\
  (forall a b c, lt a b = true -> lt b c = true -> lt a c = true) /\
  (forall a b c, lt a b = false -> lt b c = false -> lt a c = false).


(** The order a listing of orders is asked for. *)
Definition order_le (sort : option order_attribute)
           (a b : Order.t) : Prop :=
  match sort with
  | Some Order_id => Order.id a <= Order.id b
  | Some Order_status =>
      String.compare (Order.status a) (Order.status b) <> Gt
  | Some Order_shipment_amount =>
      Order.shipment_amount a <= Order.shipment_amount b
  | Some Order_total_amount =>
      (number (fun q => q) (Order.total_amount a)
       <= number (fun q => q) (Order.total_amount b))%Q
  | Some Order_total_weight =>
      (number inject_Z (Order.total_weight a)
       <= number inject_Z (Order.total_weight b))%Q
  | None => True
  end.

(** * Properties *)

(** ** Rounding to the nearest double *)

Lemma floor_bounds (x : Q) :
  (inject_Z (Qfloor x) <= x)%Q /\ (x < inject_Z (Qfloor x) + 1)%Q.
Proof.
  split; [apply Qfloor_le|].
  pose proof (Qlt_floor x) as H. rewrite inject_Z_plus in H. exact H.
Qed.

Lemma round_half_even_error (x : Q) :
  (Qabs (inject_Z (round_half_even x) - x) <= 1 # 2)%Q.
Proof.
  unfold round_half_even. destruct (floor_bounds x) as [Hlo Hhi].
  apply Qabs_Qle_condition.
  destruct (Qcompare (x - inject_Z (Qfloor x)) (1 # 2)) eqn:Hc.
  - apply Qeq_alt in Hc.
    destruct (Z.even (Qfloor x));
      [|rewrite inject_Z_plus; change (inject_Z 1) with 1%Q]; lra.
  - apply Qlt_alt in Hc. lra.
  - apply Qgt_alt in Hc. rewrite inject_Z_plus.
    change (inject_Z 1) with 1%Q. lra.
Qed.

Lemma round_half_even_near (x : Q) (n : Z) :
  (Qabs (x - inject_Z n) < 1 # 2)%Q -> round_half_even x = n.
Proof.
  intros H. apply Qabs_Qlt_condition in H. destruct H as [H1 H2].
  unfold round_half_even. destruct (floor_bounds x) as [Hlo Hhi].
  assert (Hf : Qfloor x = n \/ Qfloor x = n - 1).
  { assert (Ha : (inject_Z (Qfloor x) < inject_Z (n + 1))%Q)
      by (rewrite inject_Z_plus; change (inject_Z 1) with 1%Q; lra).
    assert (Hb : (inject_Z n < inject_Z (Qfloor x + 2))%Q)
      by (rewrite inject_Z_plus; change (inject_Z 2) with 2%Q; lra).
    rewrite <- Zlt_Qlt in Ha, Hb. lia. }
  destruct Hf as [Hf|Hf]; rewrite Hf in *.
  - assert (Hc : Qcompare (x - inject_Z n) (1 # 2) = Lt)
      by (apply (proj1 (Qlt_alt _ _)); lra).
    now rewrite Hc.
  - assert (Hc : Qcompare (x - inject_Z (n - 1)) (1 # 2) = Gt).
    { apply (proj1 (Qgt_alt _ _)). unfold Z.sub. rewrite inject_Z_plus.
      change (inject_Z (- (1))) with (- (1))%Q. lra. }
    rewrite Hc. lia.
Qed.

Lemma binary64_exponent_ge1 (x : Q) :
  (1 <= x)%Q -> binary64_exponent x = Z.log2 (Qfloor x) - 52.
Proof.
  intros H. unfold binary64_exponent.
  assert (Ha : (Qabs x == x)%Q) by (apply Qabs_pos; lra).
  assert (Hb : Qle_bool 1 (Qabs x) = true)
    by (apply Qle_bool_iff; rewrite Ha; exact H).
  rewrite Hb. now rewrite (Qfloor_comp _ _ Ha).
Qed.

Lemma floor_log2 (x : Q) :
  (1 <= x)%Q ->
  0 <= Z.log2 (Qfloor x) /\
  (inject_Z (2 ^ Z.log2 (Qfloor x)) <= x)%Q /\
  (x < inject_Z (2 ^ (Z.log2 (Qfloor x) + 1)))%Q.
Proof.
  intros H. destruct (floor_bounds x) as [Hlo Hhi].
  assert (H1 : 1 <= Qfloor x).
  { change 1 with (Qfloor 1). now apply Qfloor_resp_le. }
  destruct (Z.log2_spec (Qfloor x) ltac:(lia)) as [Ha Hb].
  split; [apply Z.log2_nonneg|]. split.
  - apply Qle_trans with (inject_Z (Qfloor x)); [|exact Hlo].
    now rewrite <- Zle_Qle.
  - apply Qlt_le_trans with (inject_Z (Qfloor x) + 1)%Q; [exact Hhi|].
    change 1%Q with (inject_Z 1). rewrite <- inject_Z_plus, <- Zle_Qle.
    unfold Z.succ in Hb. lia.
Qed.

Lemma pow2_scale (k : Z) :
  0 <= k ->
  (2 ^ (k - 52) == inject_Z (2 ^ k) / inject_Z (2 ^ 52))%Q.
Proof.
  intros Hk. rewrite Qpower_minus by discriminate.
  rewrite (Zpower_Qpower 2 k Hk), (Zpower_Qpower 2 52) by lia.
  reflexivity.
Qed.

Lemma pow2_pos (k : Z) : 0 <= k -> (0 < inject_Z (2 ^ k))%Q.
Proof.
  intros H. change 0%Q with (inject_Z 0). rewrite <- Zlt_Qlt.
  apply Z.pow_pos_nonneg; lia.
Qed.

Lemma round_half_even_comp (x y : Q) :
  (x == y)%Q -> round_half_even x = round_half_even y.
Proof.
  intros H. unfold round_half_even.
  rewrite (Qfloor_comp _ _ H).
  assert (Hc : Qcompare (x - inject_Z (Qfloor y)) (1 # 2)
               = Qcompare (y - inject_Z (Qfloor y)) (1 # 2))
    by now rewrite H.
  now rewrite Hc.
Qed.

(** The double nearest to [x] >= 1, by the power of two below [x]. *)
Lemma binary64_ge1 (x : Q) :
  (1 <= x)%Q ->
  exists k : Z,
    0 <= k /\
    (inject_Z (2 ^ k) <= x)%Q /\ (x < inject_Z (2 ^ (k + 1)))%Q /\
    (binary64 x
     == inject_Z (round_half_even (x * inject_Z (2 ^ 52) / inject_Z (2 ^ k)))
        * inject_Z (2 ^ k) / inject_Z (2 ^ 52))%Q.
Proof.
  intros H. destruct (floor_log2 x H) as (Hk & Hlo & Hhi).
  exists (Z.log2 (Qfloor x)). repeat split; try assumption.
  unfold binary64. rewrite (binary64_exponent_ge1 x H).
  pose proof (pow2_scale _ Hk) as Hu.
  pose proof (pow2_pos _ Hk) as HP.
  set (P := inject_Z (2 ^ Z.log2 (Qfloor x))) in *.
  set (u := (2 ^ (Z.log2 (Qfloor x) - 52))%Q) in *.
  assert (Hy : (x / u == x * inject_Z (2 ^ 52) / P)%Q).
  { rewrite Hu. field. split; [lra | discriminate]. }
  rewrite (round_half_even_comp _ _ Hy), Hu. field. discriminate.
Qed.

Lemma binary64_error (x : Q) :
  (1 <= x)%Q -> (Qabs (binary64 x - x) <= x * (1 # 2 ^ 53))%Q.
Proof.
  intros H. destruct (binary64_ge1 x H) as (k & Hk & Hlo & _ & ->).
  pose proof (pow2_pos _ Hk) as HP.
  set (P := inject_Z (2 ^ k)) in *.
  set (y := (x * inject_Z (2 ^ 52) / P)%Q).
  pose proof (round_half_even_error y) as He.
  set (m := inject_Z (round_half_even y)) in *.
  apply Qabs_Qle_condition in He. apply Qabs_Qle_condition.
  assert (Hd : (m * P / inject_Z (2 ^ 52) - x
                == (m - y) * (P / inject_Z (2 ^ 52)))%Q).
  { unfold y. field. split; [discriminate | lra]. }
  rewrite Hd.
  assert (Hu : (0 < P / inject_Z (2 ^ 52))%Q).
  { apply Qlt_shift_div_l; [reflexivity | lra]. }
  assert (Hb : (P / inject_Z (2 ^ 52) * (1 # 2) <= x * (1 # 2 ^ 53))%Q).
  { setoid_replace (P / inject_Z (2 ^ 52) * (1 # 2))%Q
      with (P * (1 # 2 ^ 53))%Q.
    - apply Qmult_le_compat_r; [exact Hlo | discriminate].
    - change (inject_Z (2 ^ 52)) with 4503599627370496%Q.
      change (1 # 2 ^ 53)%Q with (1 # 9007199254740992)%Q. field. }
  set (u := (P / inject_Z (2 ^ 52))%Q) in *.
  destruct He as [He1 He2]. split.
  - apply Qle_trans with (- (1 # 2) * u)%Q; [lra|].
    now apply Qmult_le_compat_r; [|apply Qlt_le_weak].
  - apply Qle_trans with ((1 # 2) * u)%Q; [|lra].
    now apply Qmult_le_compat_r; [|apply Qlt_le_weak].
Qed.

Lemma binary64_exact_near (x : Q) (n k : Z) :
  0 <= k <= 52 ->
  (inject_Z (2 ^ k) <= x)%Q -> (x < inject_Z (2 ^ (k + 1)))%Q ->
  (Qabs (x - inject_Z n) * inject_Z (2 ^ 53) < inject_Z (2 ^ k))%Q ->
  (binary64 x == inject_Z n)%Q.
Proof.
  intros Hk Hlo Hhi Hn.
  assert (H1 : (1 <= x)%Q).
  { apply Qle_trans with (inject_Z (2 ^ k)); [|exact Hlo].
    change 1%Q with (inject_Z 1). rewrite <- Zle_Qle.
    pose proof (Z.pow_pos_nonneg 2 k). lia. }
  destruct (binary64_ge1 x H1) as (k' & Hk' & Hlo' & Hhi' & ->).
  assert (k' = k).
  { assert (Ha : (inject_Z (2 ^ k) < inject_Z (2 ^ (k' + 1)))%Q)
      by (eapply Qle_lt_trans; eassumption).
    assert (Hb : (inject_Z (2 ^ k') < inject_Z (2 ^ (k + 1)))%Q)
      by (eapply Qle_lt_trans; eassumption).
    rewrite <- Zlt_Qlt in Ha, Hb.
    apply Z.pow_lt_mono_r_iff in Ha, Hb; lia. }
  subst k'.
  pose proof (pow2_pos _ Hk') as HP.
  assert (Hsplit : 2 ^ 52 = 2 ^ (52 - k) * 2 ^ k).
  { rewrite <- Z.pow_add_r by lia. f_equal. lia. }
  assert (Hm : round_half_even (x * inject_Z (2 ^ 52) / inject_Z (2 ^ k))
               = n * 2 ^ (52 - k)).
  { apply round_half_even_near.
    rewrite Hsplit at 1. rewrite !inject_Z_mult.
    set (P := inject_Z (2 ^ k)) in *.
    set (R := inject_Z (2 ^ (52 - k))).
    assert (HR : (0 < R)%Q) by (apply pow2_pos; lia).
    setoid_replace (x * (R * P) / P - inject_Z n * R)%Q
      with ((x - inject_Z n) * R)%Q by (field; lra).
    rewrite Qabs_Qmult, (Qabs_pos R) by lra.
    apply Qmult_lt_r with (z := (2 * P)%Q); [lra|].
    setoid_replace (Qabs (x - inject_Z n) * R * (2 * P))%Q
      with (Qabs (x - inject_Z n) * inject_Z (2 ^ 53))%Q.
    - lra.
    - replace (2 ^ 53) with (2 * (2 ^ (52 - k) * 2 ^ k))
        by (rewrite <- Hsplit; reflexivity).
      rewrite !inject_Z_mult. fold P R.
      change (inject_Z 2) with 2%Q. ring. }
  rewrite Hm, Hsplit, !inject_Z_mult. field.
  assert (0 < inject_Z (2 ^ (52 - k)))%Q by (apply pow2_pos; lia).
  split; lra.
Qed.

Lemma DISCOUNT_RATIO_value :
  (DISCOUNT_RATIO == 8556839292003942 # 9007199254740992)%Q.
Proof. vm_compute. reflexivity. Qed.

Lemma discounted_close (s : Z) :
  1000 < s ->
  (Qabs (times (inject_Z s) DISCOUNT_RATIO - 0.95 * inject_Z s)
   <= 0.95 * inject_Z s * (1 # 2 ^ 52))%Q.
Proof.
  intros Hs. unfold times.
  assert (HS : (1000 < inject_Z s)%Q)
    by (change 1000%Q with (inject_Z 1000); now rewrite <- Zlt_Qlt).
  set (S := inject_Z s) in *.
  assert (Hx : (S * DISCOUNT_RATIO
                == S * (8556839292003942 # 9007199254740992))%Q)
    by now rewrite DISCOUNT_RATIO_value.
  assert (H1 : (1 <= S * DISCOUNT_RATIO)%Q) by (rewrite Hx; lra).
  pose proof (binary64_error _ H1) as He.
  apply Qabs_Qle_condition in He. apply Qabs_Qle_condition.
  change (1 # 2 ^ 53)%Q with (1 # 9007199254740992)%Q in He.
  change (1 # 2 ^ 52)%Q with (1 # 4503599627370496)%Q.
  set (b := binary64 (S * DISCOUNT_RATIO)) in *.
  rewrite Hx in He. lra.
Qed.

Lemma discounted_whole_of_multiple (s : Z) :
  1000 < s -> (20 | s) -> exists n : Z, (times (inject_Z s) DISCOUNT_RATIO == inject_Z n)%Q.
Proof.
  intros Hs [t Ht]. unfold times.
  assert (HT : (50 < inject_Z t)%Q).
  { change 50%Q with (inject_Z 50). rewrite <- Zlt_Qlt. lia. }
  assert (Hx : (inject_Z s * DISCOUNT_RATIO
                == inject_Z t * (19 - (1 # 2 ^ 50)))%Q).
  { rewrite DISCOUNT_RATIO_value, Ht, inject_Z_mult.
    change (inject_Z 20) with 20%Q.
    change (1 # 2 ^ 50)%Q with (1 # 1125899906842624)%Q. field. }
  set (x := (inject_Z s * DISCOUNT_RATIO)%Q) in *.
  change (1 # 2 ^ 50)%Q with (1 # 1125899906842624)%Q in Hx.
  assert (H1 : (1 <= x)%Q) by (rewrite Hx; lra).
  destruct (binary64_ge1 x H1) as (k & Hk & Hlo & Hhi & Hb).
  pose proof (pow2_pos k Hk) as HP.
  destruct (Z.le_gt_cases k 52) as [Hle|Hgt].
  - exists (19 * t).
    apply (binary64_exact_near x (19 * t) k); try assumption; [lia|].
    rewrite inject_Z_mult. change (inject_Z 19) with 19%Q.
    assert (Hd : (x - 19 * inject_Z t
                  == - (inject_Z t * (1 # 1125899906842624)))%Q)
      by (rewrite Hx; ring).
    rewrite Hd, Qabs_opp, Qabs_pos by lra.
    change (inject_Z (2 ^ 53)) with 9007199254740992%Q.
    replace (2 ^ (k + 1)) with (2 * 2 ^ k) in Hhi
      by (rewrite Z.pow_add_r by lia; lia).
    rewrite inject_Z_mult in Hhi. change (inject_Z 2) with 2%Q in Hhi.
    rewrite Hx in Hhi. lra.
  - exists (round_half_even (x * inject_Z (2 ^ 52) / inject_Z (2 ^ k))
            * 2 ^ (k - 52)).
    rewrite Hb, inject_Z_mult.
    replace (2 ^ k) with (2 ^ (k - 52) * 2 ^ 52) at 2
      by (rewrite <- Z.pow_add_r by lia; f_equal; lia).
    rewrite inject_Z_mult. field. discriminate.
Qed.

Lemma discounted_multiple_of_whole (s n : Z) :
  1000 < s < 2 ^ 47 -> (times (inject_Z s) DISCOUNT_RATIO == inject_Z n)%Q -> (20 | s).
Proof.
  intros [Hs Hb] Hn.
  pose proof (discounted_close s Hs) as Hc. rewrite Hn in Hc.
  apply Qabs_Qle_condition in Hc.
  assert (HS : (inject_Z s < inject_Z (2 ^ 47))%Q) by now rewrite <- Zlt_Qlt.
  assert (HS0 : (1000 < inject_Z s)%Q)
    by (change 1000%Q with (inject_Z 1000); now rewrite <- Zlt_Qlt).
  change (inject_Z (2 ^ 47)) with 140737488355328%Q in HS.
  change (1 # 2 ^ 52)%Q with (1 # 4503599627370496)%Q in Hc.
  assert (Ha : (inject_Z (20 * n - 19 * s) < inject_Z 1)%Q).
  { unfold Z.sub. rewrite inject_Z_plus, inject_Z_opp, !inject_Z_mult.
    change (inject_Z 20) with 20%Q. change (inject_Z 19) with 19%Q.
    change (inject_Z 1) with 1%Q. lra. }
  assert (Hd : (inject_Z (-1) < inject_Z (20 * n - 19 * s))%Q).
  { unfold Z.sub. rewrite inject_Z_plus, inject_Z_opp, !inject_Z_mult.
    change (inject_Z 20) with 20%Q. change (inject_Z 19) with 19%Q.
    change (inject_Z (-1)) with (-1)%Q. lra. }
  rewrite <- Zlt_Qlt in Ha, Hd.
  apply (Z.gauss 20 19); [|reflexivity]. exists n. lia.
Qed.

(** The rounding agrees with the reference implementation on the
    combined prices from 1001 to 3000. *)
Lemma times_agrees_with_reference :
  forallb (fun s => Qeq_bool (times (inject_Z s) DISCOUNT_RATIO)
                             (Reference.times_ratio s))
          (Reference.range 2000 1001) = true.
Proof. vm_compute. reflexivity. Qed.

(** ** Arithmetic of the pricing expressions *)

Lemma reduce_add (l : list Z) (init : Z) :
  fold_left (fun prev cur => prev + cur) l init = init + sum l.
Proof.
  revert init; induction l as [|x l IH]; intros init; simpl.
  - lia.
  - rewrite IH. lia.
Qed.

Lemma orderTotalWeight_sum (data : list Product.t) :
  orderTotalWeight data = sum (map Product.weight data).
Proof. unfold orderTotalWeight. rewrite reduce_add. lia. Qed.

Lemma orderProductListPrice_sum (data : list Product.t) :
  orderProductListPrice data = sum (map Product.price data).
Proof. unfold orderProductListPrice. rewrite reduce_add. lia. Qed.

Lemma Math_round_half_up (x : Q) : round_half_up x (Math_round x).
Proof.
  unfold round_half_up, Math_round.
  pose proof (Qfloor_le (x + (1 # 2))) as Hlo.
  pose proof (Qlt_floor (x + (1 # 2))) as Hhi.
  rewrite inject_Z_plus in Hhi.
  split.
  - apply (Qplus_le_l _ _ (1 # 2)). ring_simplify.
    ring_simplify in Hlo. exact Hlo.
  - apply (Qplus_lt_l _ _ (1 # 2)).
    setoid_replace (inject_Z (Qfloor (x + (1 # 2))) + (1 # 2) + (1 # 2))%Q
      with (inject_Z (Qfloor (x + (1 # 2))) + inject_Z 1)%Q by ring.
    exact Hhi.
Qed.

Lemma round_half_up_unique (x : Q) (n m : Z) :
  round_half_up x n -> round_half_up x m -> n = m.
Proof.
  unfold round_half_up. intros [Hn1 Hn2] [Hm1 Hm2].
  assert (Hnm : (inject_Z n - (1 # 2) < inject_Z m + (1 # 2))%Q)
    by (eapply Qle_lt_trans; eassumption).
  assert (Hmn : (inject_Z m - (1 # 2) < inject_Z n + (1 # 2))%Q)
    by (eapply Qle_lt_trans; eassumption).
  unfold Qlt, Qminus, Qplus, inject_Z in Hnm, Hmn. simpl in Hnm, Hmn. lia.
Qed.

Lemma Math_round_tenth (w : Z) :
  Math_round (inject_Z w / inject_Z SHIPMENT_WEIGHT_STEP) = (w + 5) / 10.
Proof.
  unfold Math_round, SHIPMENT_WEIGHT_STEP.
  replace ((w + 5) / 10) with ((2 * w + 10) / 20).
  - rewrite (Zdiv_Qdiv (2 * w + 10) 20). apply Qfloor_comp.
    rewrite inject_Z_plus, inject_Z_mult. field.
  - replace (2 * w + 10) with (2 * (w + 5)) by lia.
    replace 20 with (2 * 10) by lia.
    apply Z.div_mul_cancel_l; lia.
Qed.

(** ** Order creation *)

Section Creation.

Variable Joi_number : json -> bool.
Variable parseInt : json -> Z -> option Z.

Lemma items_errors_nil (items : list json) (i : nat) :
  items_errors Joi_number i items = [] <->
  forall x, In x items -> Joi_number x = true.
Proof.
  revert i; induction items as [|x items IH]; intros i; simpl.
  - split; [intros _ y [] | reflexivity].
  - destruct (Joi_number x) eqn:Hx; simpl.
    + rewrite IH. split.
      * intros H y [<-|Hy]; auto.
      * intros H y Hy. apply H. now right.
    + split; [discriminate|].
      intros H. specialize (H x (or_introl eq_refl)). congruence.
Qed.

(** A body that passes the schema carries an array under
    [product_list]. *)
Lemma validate_passed (body : json) :
  validate_orderSchema Joi_number body = [] ->
  exists product_list,
    prop "product_list" body = Some (JArr product_list) /\
    forall x, In x product_list -> Joi_number x = true.
Proof.
  unfold validate_orderSchema, prop.
  destruct body as [| | | | |fields]; try discriminate.
  intros H. apply app_eq_nil in H as [H _].
  destruct (lookup "product_list" fields) as [[| | | |items|]|];
    try discriminate.
  exists items. split; [reflexivity|].
  now apply (items_errors_nil items 0%nat).
Qed.

Lemma post_orders_created (body : json) (st : store) :
  validate_orderSchema Joi_number body = [] ->
  resolved parseInt body st <> [] ->
  post_orders Joi_number parseInt body st
  = (Created (Order.next_id (orders st)),
     with_order (new_order parseInt body st) st).
Proof.
  intros Hv Hr. destruct (validate_passed body Hv) as (items & Hp & _).
  unfold post_orders, new_order, resolved in *. rewrite Hv, Hp in *.
  destruct (productList parseInt items st) as [|p ps] eqn:Hl;
    [congruence|].
  reflexivity.
Qed.

Lemma post_orders_unknown (body : json) (st : store) :
  validate_orderSchema Joi_number body = [] ->
  resolved parseInt body st = [] ->
  post_orders Joi_number parseInt body st
  = (Bad_request (Some [Literal "Unknown products" "product_list"]), st).
Proof.
  intros Hv Hr. destruct (validate_passed body Hv) as (items & Hp & _).
  unfold post_orders, resolved in *. rewrite Hv, Hp in *.
  rewrite Hr. reflexivity.
Qed.

Lemma post_orders_invalid (body : json) (st : store) d ds :
  validate_orderSchema Joi_number body = d :: ds ->
  post_orders Joi_number parseInt body st
  = (Bad_request (Some (map From_joi (d :: ds))), st).
Proof. intros Hv. unfold post_orders. rewrite Hv. reflexivity. Qed.

(** The handler never throws: past the schema, [req.body.product_list] is
    an array. *)
Lemma post_orders_answers (body : json) (st : store) :
  fst (post_orders Joi_number parseInt body st) <> Thrown.
Proof.
  destruct (validate_orderSchema Joi_number body) as [|d ds] eqn:Hv.
  - destruct (resolved parseInt body st) as [|p ps] eqn:Hr.
    + now rewrite (post_orders_unknown body st Hv Hr).
    + rewrite (post_orders_created body st Hv); [discriminate | congruence].
  - now rewrite (post_orders_invalid body st d ds Hv).
Qed.

End Creation.

(** ** Pricing claims *)

(** C1. When the request passes the schema and resolves to a non-empty
    list of line items, order creation succeeds and persists an order
    whose [total_weight] is the sum of the item weights and whose
    [shipment_amount] is 25 times that sum divided by 10 and rounded to
    the nearest integer, a tie going up; with a total weight of 5 the
    shipment amount is 25. *)
Theorem creation_weight_and_shipment
        (Joi_number : json -> bool) (parseInt : json -> Z -> option Z)
        (body : json) (st : store) :
  validate_orderSchema Joi_number body = [] ->
  resolved parseInt body st <> [] ->
  let weights := map Product.weight (resolved parseInt body st) in
  exists (o : Order.t) (n : Z),
    post_orders Joi_number parseInt body st
    = (Created (Order.id o), with_order o st) /\
    Order.total_weight o = Some (sum weights) /\
    round_half_up (inject_Z (sum weights) / inject_Z 10) n /\
    Order.shipment_amount o = 25 * n /\
    (sum weights = 5 -> Order.shipment_amount o = 25).
Proof.
  intros Hv Hr weights.
  exists (new_order parseInt body st).
  exists (Math_round (inject_Z (sum weights) / inject_Z SHIPMENT_WEIGHT_STEP)).
  split; [now apply post_orders_created|].
  unfold new_order; simpl. rewrite orderTotalWeight_sum. fold weights.
  split; [reflexivity|]. split; [apply Math_round_half_up|].
  unfold orderShipmentPrice. rewrite orderTotalWeight_sum. fold weights.
  split; [reflexivity|].
  intros ->. rewrite Math_round_tenth. reflexivity.
Qed.

Lemma creation_weight_and_shipment_witness :
  exists (o : Order.t) (n : Z),
    post_orders Decimal.Joi_number Decimal.parseInt (order_of [JStr "1"]) shop
    = (Created (Order.id o), with_order o shop) /\
    Order.total_weight o = Some (sum [5]) /\
    round_half_up (inject_Z (sum [5]) / inject_Z 10) n /\
    Order.shipment_amount o = 25 * n /\
    (sum [5] = 5 -> Order.shipment_amount o = 25).
Proof.
  apply (creation_weight_and_shipment
           Decimal.Joi_number Decimal.parseInt (order_of [JStr "1"]) shop).
  - reflexivity.
  - discriminate.
Defined.

(** C2, as the code has it.  When the request passes the schema and
    resolves to a non-empty list of line items, the persisted
    [total_amount] is the sum of the item prices plus the shipment amount
    when that sum is at most 1000.  When it is greater than 1000 the
    discount is taken once on the combined total, in doubles: the total
    is the double nearest to the product of that sum by the double that
    [0.95] denotes, which lies within a relative 2^-52 of 0.95 times the
    sum. *)
Theorem creation_total_amount
        (Joi_number : json -> bool) (parseInt : json -> Z -> option Z)
        (body : json) (st : store) :
  validate_orderSchema Joi_number body = [] ->
  resolved parseInt body st <> [] ->
  let prices := map Product.price (resolved parseInt body st) in
  exists (o : Order.t) (total : Q),
    post_orders Joi_number parseInt body st
    = (Created (Order.id o), with_order o st) /\
    Order.total_amount o = Some total /\
    (sum prices + Order.shipment_amount o <= 1000 ->
     (total == inject_Z (sum prices + Order.shipment_amount o))%Q) /\
    (1000 < sum prices + Order.shipment_amount o ->
     (total == binary64 (inject_Z (sum prices + Order.shipment_amount o)
                         * binary64 0.95))%Q /\
     (Qabs (total - 0.95 * inject_Z (sum prices + Order.shipment_amount o))
      <= 0.95 * inject_Z (sum prices + Order.shipment_amount o)
         * (1 # 2 ^ 52))%Q).
Proof.
  intros Hv Hr prices.
  exists (new_order parseInt body st).
  exists (totalAmount (resolved parseInt body st)).
  split; [now apply post_orders_created|].
  split; [reflexivity|].
  unfold new_order, totalAmount; simpl.
  rewrite orderProductListPrice_sum. fold prices.
  set (s := sum prices + orderShipmentPrice (resolved parseInt body st)).
  unfold Qgt_bool, DISCOUNT_THRESHOLD.
  destruct (Qle_bool (inject_Z s) (inject_Z 1000)) eqn:Hle; simpl.
  - apply Qle_bool_iff in Hle. rewrite <- Zle_Qle in Hle.
    split; [reflexivity | lia].
  - assert (Hgt : 1000 < s).
    { destruct (Z_lt_le_dec 1000 s) as [H|H]; [exact H|].
      rewrite Zle_Qle in H. apply Qle_bool_iff in H. congruence. }
    split; [lia | intros _].
    split; [reflexivity | now apply discounted_close].
Qed.

Lemma creation_total_amount_witness :
  exists (o : Order.t) (total : Q),
    post_orders Decimal.Joi_number Decimal.parseInt (order_of [JNum 2]) shop
    = (Created (Order.id o), with_order o shop) /\
    Order.total_amount o = Some total /\
    (sum [1001] + Order.shipment_amount o <= 1000 ->
     (total == inject_Z (sum [1001] + Order.shipment_amount o)%Z)%Q) /\
    (1000 < sum [1001] + Order.shipment_amount o ->
     (total == binary64 (inject_Z (sum [1001] + Order.shipment_amount o)%Z
                         * binary64 0.95))%Q /\
     (Qabs (total
            - 0.95 * inject_Z (sum [1001] + Order.shipment_amount o)%Z)
      <= 0.95 * inject_Z (sum [1001] + Order.shipment_amount o)%Z
         * (1 # 2 ^ 52))%Q).
Proof.
  apply (creation_total_amount
           Decimal.Joi_number Decimal.parseInt (order_of [JNum 2]) shop).
  - reflexivity.
  - discriminate.
Defined.

(** C2 as stated fails on an order of one item of price 1001 and weight
    0: the persisted total is the double 950.9499999999999, which is not
    0.95 times 1001. *)
Lemma discount_not_exact_counterexample :
  exists (o : Order.t) (total : Q),
    post_orders Decimal.Joi_number Decimal.parseInt (order_of [JNum 2]) shop
    = (Created (Order.id o), with_order o shop) /\
    Order.total_amount o = Some total /\
    1000 < sum [1001] + Order.shipment_amount o /\
    (total == 8364644659468697 # 8796093022208)%Q /\
    ~ (total == 0.95 * inject_Z (sum [1001] + Order.shipment_amount o)%Z)%Q.
Proof.
  exists (new_order Decimal.parseInt (order_of [JNum 2]) shop).
  exists (totalAmount [voucher]).
  split; [reflexivity|]. split; [reflexivity|]. split; [reflexivity|].
  split; [vm_compute; reflexivity|].
  intros H. vm_compute in H. discriminate H.
Qed.

(** ** Status transitions *)

Lemma includes_In (l : list string) (s : string) :
  includes l s = true <-> In s l.
Proof.
  unfold includes. rewrite existsb_exists. split.
  - intros (x & Hx & He). apply String.eqb_eq in He. now subst.
  - intros H. exists s. split; [assumption | apply String.eqb_refl].
Qed.

Lemma findById_id (k : Z) (tb : Order.table) (o : Order.t) :
  Order.findById k tb = Some o -> Order.id o = k.
Proof.
  unfold Order.findById. intros H. apply find_some in H as [_ H].
  now apply Z.eqb_eq.
Qed.

Lemma findById_update_status (k : Z) (tb : Order.table) (o : Order.t)
      (s : string) :
  Order.findById k tb = Some o ->
  Order.findById k (Order.update_status o s tb)
  = Some (Order.set_status s o).
Proof.
  intros H. pose proof (findById_id _ _ _ H) as Hk. subst k.
  unfold Order.findById, Order.update_status in *. simpl.
  induction (Order.rows tb) as [|r rows IH]; simpl in *; [discriminate|].
  destruct (Order.id r =? Order.id o) eqn:Hr.
  - injection H as ->. simpl. rewrite Z.eqb_refl. reflexivity.
  - rewrite Hr. now apply IH.
Qed.

Lemma put_order_status_ok (id : Z) (body : json) (st : store)
      (o : Order.t) (s : string) :
  Order.findById id (orders st) = Some o ->
  prop "status" body = Some (JStr s) ->
  In s statuses ->
  put_order_status id body st = (Ok, transitioned o s st).
Proof.
  intros Ho Hs Hin. unfold put_order_status. rewrite Ho, Hs.
  apply includes_In in Hin. unfold statuses in Hin. rewrite Hin.
  reflexivity.
Qed.

Lemma put_order_status_invalid (id : Z) (body : json) (st : store)
      (o : Order.t) :
  Order.findById id (orders st) = Some o ->
  ~ recognized (prop "status" body) ->
  put_order_status id body st = (Bad_request None, st).
Proof.
  intros Ho Hn. unfold put_order_status. rewrite Ho.
  destruct (prop "status" body) as [[| | |s| |]|]; try reflexivity.
  destruct (includes ["pending"; "paid"; "cancelled"] s) eqn:Hi;
    [|reflexivity].
  exfalso. apply Hn. exists s. split; [reflexivity|].
  now apply includes_In.
Qed.

(** C3. A transition request for an existing order that asks for
    ["paid"] succeeds and adds one bill carrying the [total_amount] the
    order has in the store.  Nothing guards the emission: the same
    request on the order it has just paid adds a second bill with the
    same amount. *)
Theorem paid_emits_bill (id : Z) (body : json) (st : store) (o : Order.t) :
  Order.findById id (orders st) = Some o ->
  prop "status" body = Some (JStr "paid") ->
  let bill k := {| Bill.id := k; Bill.total_amount := Order.total_amount o |} in
  let st1 := snd (put_order_status id body st) in
  let st2 := snd (put_order_status id body st1) in
  fst (put_order_status id body st) = Ok /\
  Bill.rows (bills st1)
  = Bill.rows (bills st) ++ [bill (Bill.next_id (bills st))] /\
  (exists o1, Order.findById id (orders st1) = Some o1 /\
              Order.status o1 = "paid") /\
  fst (put_order_status id body st1) = Ok /\
  Bill.rows (bills st2)
  = Bill.rows (bills st) ++ [bill (Bill.next_id (bills st));
                             bill (Bill.next_id (bills st) + 1)].
Proof.
  intros Ho Hs bill st1 st2.
  assert (Hin : In "paid" statuses) by (simpl; auto).
  pose proof (put_order_status_ok id body st o "paid" Ho Hs Hin) as H1.
  assert (Ho1 : Order.findById id (orders st1)
                = Some (Order.set_status "paid" o)).
  { subst st1. rewrite H1. simpl. now apply findById_update_status. }
  pose proof (put_order_status_ok id body st1 _ "paid" Ho1 Hs Hin) as H2.
  subst st2. rewrite H2. subst st1. rewrite H1 in *. simpl.
  repeat split.
  - exists (Order.set_status "paid" o). split; [exact Ho1 | reflexivity].
  - rewrite <- app_assoc. reflexivity.
Qed.

Lemma paid_emits_bill_witness :
  let o := {| Order.id := 1; Order.status := "paid";
              Order.shipment_amount := 25;
              Order.total_amount := Some 125%Q;
              Order.total_weight := Some 5 |} in
  let bill k := {| Bill.id := k; Bill.total_amount := Order.total_amount o |} in
  let st1 := snd (put_order_status 1 paying ledger) in
  let st2 := snd (put_order_status 1 paying st1) in
  fst (put_order_status 1 paying ledger) = Ok /\
  Bill.rows (bills st1)
  = Bill.rows (bills ledger) ++ [bill (Bill.next_id (bills ledger))] /\
  (exists o1, Order.findById 1 (orders st1) = Some o1 /\
              Order.status o1 = "paid") /\
  fst (put_order_status 1 paying st1) = Ok /\
  Bill.rows (bills st2)
  = Bill.rows (bills ledger) ++ [bill (Bill.next_id (bills ledger));
                                 bill (Bill.next_id (bills ledger) + 1)].
Proof.
  apply (paid_emits_bill 1 paying ledger); reflexivity.
Defined.

(** C7. A transition request for an existing order that asks for one of
    ["pending"], ["paid"], ["cancelled"] succeeds and leaves the order
    with the requested status, whatever status the order had: no
    transition table stands in between, so a same-state or a backward
    transition is written like any other. *)
Theorem requested_status_persisted (id : Z) (body : json) (st : store)
        (o : Order.t) (s : string) :
  Order.findById id (orders st) = Some o ->
  prop "status" body = Some (JStr s) ->
  In s statuses ->
  fst (put_order_status id body st) = Ok /\
  Order.findById id (orders (snd (put_order_status id body st)))
  = Some {| Order.id := Order.id o;
            Order.status := s;
            Order.shipment_amount := Order.shipment_amount o;
            Order.total_amount := Order.total_amount o;
            Order.total_weight := Order.total_weight o |}.
Proof.
  intros Ho Hs Hin.
  rewrite (put_order_status_ok id body st o s Ho Hs Hin). simpl.
  split; [reflexivity|].
  now rewrite (findById_update_status id (orders st) o s Ho).
Qed.

Lemma requested_status_persisted_witness :
  fst (put_order_status 1 (JObj [("status", JStr "cancelled")]) ledger) = Ok /\
  Order.findById 1
    (orders (snd (put_order_status 1 (JObj [("status", JStr "cancelled")])
                                   ledger)))
  = Some {| Order.id := 1;
            Order.status := "cancelled";
            Order.shipment_amount := 25;
            Order.total_amount := Some 125%Q;
            Order.total_weight := Some 5 |}.
Proof.
  apply (requested_status_persisted
           1 (JObj [("status", JStr "cancelled")]) ledger
           {| Order.id := 1; Order.status := "paid";
              Order.shipment_amount := 25;
              Order.total_amount := Some 125%Q;
              Order.total_weight := Some 5 |} "cancelled").
  - reflexivity.
  - reflexivity.
  - simpl. auto.
Defined.

(** C9. A transition request answers 404 (not found) when no order has
    the identifier; for an existing order it answers 400 (invalid status)
    when the requested status is not one of the three recognized
    strings, and 200 when it is. *)
Theorem transition_outcome (id : Z) (body : json) (st : store) :
  (Order.findById id (orders st) = None ->
   fst (put_order_status id body st) = Not_found) /\
  (Order.findById id (orders st) <> None ->
   ~ recognized (prop "status" body) ->
   fst (put_order_status id body st) = Bad_request None) /\
  (Order.findById id (orders st) <> None ->
   recognized (prop "status" body) ->
   fst (put_order_status id body st) = Ok).
Proof.
  repeat split.
  - intros Hn. unfold put_order_status. now rewrite Hn.
  - intros Ho Hr. destruct (Order.findById id (orders st)) as [o|] eqn:E;
      [|congruence].
    now rewrite (put_order_status_invalid id body st o E Hr).
  - intros Ho (s & Hs & Hin).
    destruct (Order.findById id (orders st)) as [o|] eqn:E; [|congruence].
    now rewrite (put_order_status_ok id body st o s E Hs Hin).
Qed.

Lemma transition_outcome_witness :
  fst (put_order_status 7 paying ledger) = Not_found /\
  fst (put_order_status 1 (JObj [("status", JStr "shipped")]) ledger)
  = Bad_request None /\
  fst (put_order_status 1 paying ledger) = Ok.
Proof.
  split; [|split].
  - apply (transition_outcome 7 paying ledger). reflexivity.
  - apply (transition_outcome 1 (JObj [("status", JStr "shipped")]) ledger).
    + discriminate.
    + intros (s & Hs & Hin). injection Hs as <-.
      simpl in Hin. repeat destruct Hin as [Hin|Hin]; discriminate || easy.
  - apply (transition_outcome 1 paying ledger).
    + discriminate.
    + exists "paid". split; [reflexivity | simpl; auto].
Defined.

(** C10. A transition request that does not answer 200 (the order is not
    found, or the requested status is not one of the three recognized
    strings) leaves the store as it was: no bill is added and the
    targeted order is not changed. *)
Theorem failed_transition_atomic (id : Z) (body : json) (st : store) :
  fst (put_order_status id body st) <> Ok ->
  (Order.findById id (orders st) = None \/
   ~ recognized (prop "status" body)) /\
  snd (put_order_status id body st) = st /\
  bills (snd (put_order_status id body st)) = bills st /\
  Order.findById id (orders (snd (put_order_status id body st)))
  = Order.findById id (orders st).
Proof.
  intros Hf.
  destruct (Order.findById id (orders st)) as [o|] eqn:Ho.
  - assert (Hn : ~ recognized (prop "status" body)).
    { intros (s & Hs & Hin). apply Hf.
      now rewrite (put_order_status_ok id body st o s Ho Hs Hin). }
    rewrite (put_order_status_invalid id body st o Ho Hn). simpl.
    rewrite Ho. auto.
  - unfold put_order_status. rewrite Ho. simpl. rewrite Ho. auto.
Qed.

Lemma failed_transition_atomic_witness :
  (Order.findById 1 (orders ledger) = None \/
   ~ recognized (prop "status" (JObj [("status", JStr "shipped")]))) /\
  snd (put_order_status 1 (JObj [("status", JStr "shipped")]) ledger)
  = ledger /\
  bills (snd (put_order_status 1 (JObj [("status", JStr "shipped")]) ledger))
  = bills ledger /\
  Order.findById 1
    (orders (snd (put_order_status 1 (JObj [("status", JStr "shipped")])
                                   ledger)))
  = Order.findById 1 (orders ledger).
Proof.
  apply (failed_transition_atomic 1 (JObj [("status", JStr "shipped")]) ledger).
  discriminate.
Defined.

(** ** Rejected order creations *)

Lemma findAll_in_none (ids : list (option Z)) (rows : list Product.t) :
  (forall p k, In p rows -> In (Some k) ids -> Product.id p <> k) ->
  Product.findAll_in ids rows = [].
Proof.
  intros H. unfold Product.findAll_in.
  induction rows as [|p rows IH]; simpl; [reflexivity|].
  destruct (existsb _ ids) eqn:He.
  - apply existsb_exists in He as ([k|] & Hin & Hk); [|discriminate].
    apply Z.eqb_eq in Hk. exfalso.
    apply (H p k); [now left | assumption | assumption].
  - apply IH. intros q k Hq. apply H. now right.
Qed.

(** C8. When the request passes the schema and no coerced identifier of
    its product list is the key of a product of the catalog, order
    creation answers 400 with the single detail
    [{ message: "Unknown products", context: { key: "product_list" } }],
    the shape of a validation failure on the field [product_list], and
    the store is left as it was: no order is persisted. *)
Theorem unknown_products_rejected
        (Joi_number : json -> bool) (parseInt : json -> Z -> option Z)
        (body : json) (st : store) :
  validate_orderSchema Joi_number body = [] ->
  (forall product_list x p,
      prop "product_list" body = Some (JArr product_list) ->
      In x product_list -> In p (products st) ->
      parseInt x 0 <> Some (Product.id p)) ->
  post_orders Joi_number parseInt body st
  = (Bad_request (Some [Literal "Unknown products" "product_list"]), st) /\
  UnknownReferenceError (fst (post_orders Joi_number parseInt body st)) /\
  orders (snd (post_orders Joi_number parseInt body st)) = orders st.
Proof.
  intros Hv Hnone.
  assert (Hr : resolved parseInt body st = []).
  { unfold resolved.
    destruct (prop "product_list" body) as [[| | | |items|]|] eqn:Hp;
      try reflexivity.
    unfold productList, coerced. apply findAll_in_none.
    intros p k Hin Hk. apply in_map_iff in Hk as (x & Hx & Hxin).
    intros Heq. apply (Hnone items x p eq_refl Hxin Hin). congruence. }
  rewrite (post_orders_unknown Joi_number parseInt body st Hv Hr).
  repeat split.
Qed.

Lemma unknown_products_rejected_witness :
  post_orders Decimal.Joi_number Decimal.parseInt
              (order_of [JStr "7"; JNum 9]) shop
  = (Bad_request (Some [Literal "Unknown products" "product_list"]), shop) /\
  UnknownReferenceError
    (fst (post_orders Decimal.Joi_number Decimal.parseInt
                      (order_of [JStr "7"; JNum 9]) shop)) /\
  orders (snd (post_orders Decimal.Joi_number Decimal.parseInt
                           (order_of [JStr "7"; JNum 9]) shop))
  = orders shop.
Proof.
  apply (unknown_products_rejected
           Decimal.Joi_number Decimal.parseInt
           (order_of [JStr "7"; JNum 9]) shop).
  - reflexivity.
  - intros product_list x p Hp Hx Hin. injection Hp as <-.
    simpl in Hx, Hin.
    destruct Hx as [<-|[<-|[]]]; destruct Hin as [<-|[<-|[]]];
      vm_compute; discriminate.
Defined.

(** C4, as the code has it.  A request whose product list is not empty
    and has only entries that [Joi.number()] rejects fails with a
    validation error, and no order is persisted.  The schema sets no
    minimum length: the empty list passes it, and a request that passes
    the schema with an empty product list fails with the
    unknown-reference error instead, again with no order persisted. *)
Theorem invalid_or_empty_product_list
        (Joi_number : json -> bool) (parseInt : json -> Z -> option Z)
        (body : json) (product_list : list json) (st : store) :
  prop "product_list" body = Some (JArr product_list) ->
  (product_list <> [] ->
   (forall x, In x product_list -> Joi_number x = false) ->
   ValidationError (fst (post_orders Joi_number parseInt body st)) /\
   snd (post_orders Joi_number parseInt body st) = st) /\
  (product_list = [] ->
   validate_orderSchema Joi_number body = [] ->
   UnknownReferenceError (fst (post_orders Joi_number parseInt body st)) /\
   snd (post_orders Joi_number parseInt body st) = st) /\
  validate_orderSchema Joi_number (order_of []) = [].
Proof.
  intros Hp. split; [|split].
  - intros Hne Hbad.
    destruct (validate_orderSchema Joi_number body) as [|d ds] eqn:Hv.
    + exfalso. destruct (validate_passed Joi_number body Hv)
        as (items & Hp' & Hok).
      rewrite Hp in Hp'. injection Hp' as <-.
      destruct product_list as [|x l]; [congruence|].
      specialize (Hok x (or_introl eq_refl)).
      specialize (Hbad x (or_introl eq_refl)). congruence.
    + rewrite (post_orders_invalid Joi_number parseInt body st d ds Hv).
      split; [|reflexivity]. exists d, ds. reflexivity.
  - intros -> Hv.
    assert (Hr : resolved parseInt body st = []).
    { unfold resolved, productList. rewrite Hp.
      apply findAll_in_none. intros p k _ []. }
    rewrite (post_orders_unknown Joi_number parseInt body st Hv Hr).
    split; reflexivity.
  - reflexivity.
Qed.

Lemma invalid_or_empty_product_list_witness :
  (forall x, In x [JStr "x"; JNull] -> Decimal.Joi_number x = false) /\
  ValidationError
    (fst (post_orders Decimal.Joi_number Decimal.parseInt
                      (order_of [JStr "x"; JNull]) shop)) /\
  snd (post_orders Decimal.Joi_number Decimal.parseInt
                   (order_of [JStr "x"; JNull]) shop) = shop.
Proof.
  assert (H : forall x, In x [JStr "x"; JNull] ->
                        Decimal.Joi_number x = false).
  { intros x [<-|[<-|[]]]; reflexivity. }
  split; [exact H|].
  apply (invalid_or_empty_product_list
           Decimal.Joi_number Decimal.parseInt
           (order_of [JStr "x"; JNull]) [JStr "x"; JNull] shop).
  - reflexivity.
  - discriminate.
  - exact H.
Defined.

(** C4 as stated fails on the empty list: the answer is the
    unknown-reference error, which is no validation error. *)
Lemma empty_product_list_counterexample :
  let r := fst (post_orders Decimal.Joi_number Decimal.parseInt
                            (order_of []) shop) in
  UnknownReferenceError r /\ ~ ValidationError r.
Proof.
  split.
  - reflexivity.
  - intros (d & ds & H). discriminate H.
Qed.

(** ** What the created order keeps *)

(** [defaultValue: 25] fills [shipment_amount] only when the values carry
    none. *)
Lemma shipment_amount_default (v : Order.values) (tb : Order.table) :
  Order.v_shipment_amount v = None ->
  Order.shipment_amount (fst (Order.create v tb)) = 25.
Proof. intros H. simpl. now rewrite H. Qed.

(** C6, as the code has it.  When the request passes the schema and
    resolves to line items whose weights add up to zero, the persisted
    [shipment_amount] is 0: the handler always hands the computed amount
    to [Order.create], so the default of 25 is not used. *)
Theorem zero_weight_shipment
        (Joi_number : json -> bool) (parseInt : json -> Z -> option Z)
        (body : json) (st : store) :
  validate_orderSchema Joi_number body = [] ->
  resolved parseInt body st <> [] ->
  sum (map Product.weight (resolved parseInt body st)) = 0 ->
  exists o : Order.t,
    post_orders Joi_number parseInt body st
    = (Created (Order.id o), with_order o st) /\
    Order.total_weight o = Some 0 /\
    Order.shipment_amount o = 0.
Proof.
  intros Hv Hr Hw.
  exists (new_order parseInt body st).
  split; [now apply post_orders_created|].
  unfold new_order, orderShipmentPrice; simpl.
  rewrite orderTotalWeight_sum, Hw, Math_round_tenth.
  split; reflexivity.
Qed.

Lemma zero_weight_shipment_witness :
  exists o : Order.t,
    post_orders Decimal.Joi_number Decimal.parseInt (order_of [JNum 2]) shop
    = (Created (Order.id o), with_order o shop) /\
    Order.total_weight o = Some 0 /\
    Order.shipment_amount o = 0.
Proof.
  apply (zero_weight_shipment
           Decimal.Joi_number Decimal.parseInt (order_of [JNum 2]) shop).
  - reflexivity.
  - discriminate.
  - reflexivity.
Defined.

(** C6 as stated fails on an order of one item of weight 0: the
    persisted [shipment_amount] is 0, not 25. *)
Lemma zero_weight_counterexample :
  exists o : Order.t,
    post_orders Decimal.Joi_number Decimal.parseInt (order_of [JNum 2]) shop
    = (Created (Order.id o), with_order o shop) /\
    orderTotalWeight (resolved Decimal.parseInt (order_of [JNum 2]) shop) = 0 /\
    Order.shipment_amount o <> 25.
Proof.
  exists (new_order Decimal.parseInt (order_of [JNum 2]) shop).
  split; [reflexivity|]. split; [reflexivity|]. discriminate.
Qed.

(** The fields of the row of a successful creation, and what becomes of
    the product list: the values handed to [Order.create] carry the list
    as the body has it, not the coerced or the resolved one, and the row
    has no attribute to keep it. *)
Lemma created_order_fields
      (Joi_number : json -> bool) (parseInt : json -> Z -> option Z)
      (body : json) (st : store) :
  validate_orderSchema Joi_number body = [] ->
  resolved parseInt body st <> [] ->
  exists (o : Order.t) (raw : json),
    post_orders Joi_number parseInt body st
    = (Created (Order.id o), with_order o st) /\
    prop "product_list" body = Some raw /\
    (o, orders (with_order o st))
    = Order.create (orderData raw (resolved parseInt body st)) (orders st) /\
    Order.v_product_list (orderData raw (resolved parseInt body st))
    = Some raw /\
    Order.status o = "pending" /\
    Order.total_amount o = Some (totalAmount (resolved parseInt body st)) /\
    Order.shipment_amount o = orderShipmentPrice (resolved parseInt body st) /\
    Order.total_weight o = Some (orderTotalWeight (resolved parseInt body st)) /\
    lookup "product_list" (Order.toJSON o) = None.
Proof.
  intros Hv Hr.
  destruct (validate_passed Joi_number body Hv) as (items & Hp & _).
  exists (new_order parseInt body st), (JArr items).
  split; [now apply post_orders_created|].
  repeat split; assumption.
Qed.

(** C5 on the order of one chair, asked for as the string ["1"]: the row
    is pending and carries the three computed amounts; the values handed
    to [Order.create] carry the list [["1"]] as received; the persisted
    row does not have it. *)
Lemma product_list_not_persisted :
  let body := order_of [JStr "1"] in
  let raw := JArr [JStr "1"] in
  exists o : Order.t,
    post_orders Decimal.Joi_number Decimal.parseInt body shop
    = (Created (Order.id o), with_order o shop) /\
    (o, orders (with_order o shop))
    = Order.create (orderData raw [chair]) (orders shop) /\
    Order.v_product_list (orderData raw [chair]) = Some raw /\
    Order.status o = "pending" /\
    Order.total_amount o = Some 125%Q /\
    Order.shipment_amount o = 25 /\
    Order.total_weight o = Some 5 /\
    lookup "product_list" (Order.toJSON o) = None.
Proof.
  exists (new_order Decimal.parseInt (order_of [JStr "1"]) shop).
  repeat split.
Qed.

(** * Further properties *)

(** ** Pricing *)

Lemma sum_permutation (l1 l2 : list Z) :
  Permutation l1 l2 -> sum l1 = sum l2.
Proof.
  induction 1 as [|x l l' _ IH|x y l|l l' l'' _ IH1 _ IH2]; simpl; lia.
Qed.

Lemma orderShipmentPrice_tenth (data : list Product.t) :
  orderShipmentPrice data
  = 25 * ((sum (map Product.weight data) + 5) / 10).
Proof.
  unfold orderShipmentPrice.
  now rewrite Math_round_tenth, orderTotalWeight_sum.
Qed.

Lemma totalAmount_cases (data : list Product.t) :
  (combined data <= 1000 /\ totalAmount data = inject_Z (combined data)) \/
  (1000 < combined data /\
   totalAmount data = times (inject_Z (combined data)) DISCOUNT_RATIO).
Proof.
  unfold totalAmount, Qgt_bool, DISCOUNT_THRESHOLD. fold (combined data).
  destruct (Qle_bool (inject_Z (combined data)) (inject_Z 1000)) eqn:Hle;
    simpl.
  - left. apply Qle_bool_iff in Hle. rewrite <- Zle_Qle in Hle. now split.
  - right. split; [|reflexivity].
    destruct (Z_lt_le_dec 1000 (combined data)) as [H|H]; [exact H|].
    rewrite Zle_Qle in H. apply Qle_bool_iff in H. congruence.
Qed.

Lemma above_threshold (s : Z) : 1000 < s -> (1001 <= inject_Z s)%Q.
Proof.
  intros H. change 1001%Q with (inject_Z 1001). rewrite <- Zle_Qle. lia.
Qed.

(** X1. The pricing does not depend on the order in which the catalog
    lookup returns the line items. *)
Theorem pricing_permutation (data1 data2 : list Product.t) :
  Permutation data1 data2 ->
  orderTotalWeight data1 = orderTotalWeight data2 /\
  orderProductListPrice data1 = orderProductListPrice data2 /\
  orderShipmentPrice data1 = orderShipmentPrice data2 /\
  totalAmount data1 = totalAmount data2.
Proof.
  intros HP.
  assert (Hw : orderTotalWeight data1 = orderTotalWeight data2).
  { rewrite !orderTotalWeight_sum. apply sum_permutation.
    now apply Permutation_map. }
  assert (Hp : orderProductListPrice data1 = orderProductListPrice data2).
  { rewrite !orderProductListPrice_sum. apply sum_permutation.
    now apply Permutation_map. }
  assert (Hs : orderShipmentPrice data1 = orderShipmentPrice data2).
  { unfold orderShipmentPrice. now rewrite Hw. }
  repeat split; try assumption.
  unfold totalAmount. now rewrite Hp, Hs.
Qed.

Lemma pricing_permutation_witness :
  orderTotalWeight [chair; voucher] = orderTotalWeight [voucher; chair] /\
  orderProductListPrice [chair; voucher]
  = orderProductListPrice [voucher; chair] /\
  orderShipmentPrice [chair; voucher] = orderShipmentPrice [voucher; chair] /\
  totalAmount [chair; voucher] = totalAmount [voucher; chair].
Proof.
  apply (pricing_permutation [chair; voucher] [voucher; chair]).
  apply perm_swap.
Defined.

(** X2. The shipment amount is a multiple of 25 that stays within 12.5
    of 2.5 times the total weight; it is 0 exactly for a total weight
    from -5 to 4, and it is not negative when the weight is not. *)
Theorem shipment_steps (data : list Product.t) :
  let w := sum (map Product.weight data) in
  let shipment := orderShipmentPrice data in
  (25 | shipment) /\
  5 * w - 25 < 2 * shipment <= 5 * w + 25 /\
  (shipment = 0 <-> -5 <= w <= 4) /\
  (0 <= w -> 0 <= shipment).
Proof.
  intros w shipment. subst shipment. rewrite orderShipmentPrice_tenth.
  fold w. split; [apply Z.divide_factor_l|].
  pose proof (Z.div_mod (w + 5) 10 ltac:(lia)) as Hd.
  pose proof (Z.mod_pos_bound (w + 5) 10 ltac:(lia)) as Hm.
  repeat split; lia.
Qed.

(** X3. A heavier order never ships for less. *)
Theorem shipment_monotone (data1 data2 : list Product.t) :
  sum (map Product.weight data1) <= sum (map Product.weight data2) ->
  orderShipmentPrice data1 <= orderShipmentPrice data2.
Proof.
  intros H. rewrite !orderShipmentPrice_tenth.
  apply Z.mul_le_mono_nonneg_l; [lia|].
  apply Z.div_le_mono; lia.
Qed.

Lemma shipment_monotone_witness :
  orderShipmentPrice [voucher] <= orderShipmentPrice [chair].
Proof.
  apply (shipment_monotone [voucher] [chair]). vm_compute. discriminate.
Defined.

(** X4. Once the combined price passes 1000 the total stays above 950
    and below the combined price, within a relative 2^-52 of the
    combined price less a twentieth of it. *)
Theorem discount_bounds (data : list Product.t) :
  1000 < combined data ->
  (950 < totalAmount data)%Q /\
  (totalAmount data < inject_Z (combined data))%Q /\
  (Qabs (totalAmount data
         - (inject_Z (combined data) - inject_Z (combined data) / 20))
   <= inject_Z (combined data) * (1 # 2 ^ 52))%Q.
Proof.
  intros Hgt.
  destruct (totalAmount_cases data) as [[Hle _]|[_ ->]]; [lia|].
  pose proof (discounted_close _ Hgt) as Hc.
  pose proof (above_threshold _ Hgt) as HS.
  apply Qabs_Qle_condition in Hc.
  change (1 # 2 ^ 52)%Q with (1 # 4503599627370496)%Q in *.
  set (S := inject_Z (combined data)) in *.
  set (b := times S DISCOUNT_RATIO) in *.
  split; [lra|]. split; [lra|].
  apply Qabs_Qle_condition.
  setoid_replace (S - S / 20)%Q with (0.95 * S)%Q by field.
  lra.
Qed.

Lemma discount_bounds_witness :
  (950 < totalAmount [voucher])%Q /\
  (totalAmount [voucher] < inject_Z (combined [voucher]))%Q /\
  (Qabs (totalAmount [voucher]
         - (inject_Z (combined [voucher])
            - inject_Z (combined [voucher]) / 20))
   <= inject_Z (combined [voucher]) * (1 # 2 ^ 52))%Q.
Proof.
  apply (discount_bounds [voucher]). reflexivity.
Defined.

(** X5. The price is not monotone at the threshold: an order whose
    combined price is above 1000 is charged less than an order whose
    combined price is at most 1000 but more than 95% of it. *)
Theorem discount_inversion (cheap dear : list Product.t) :
  combined cheap <= 1000 ->
  1000 < combined dear ->
  19 * combined dear < 20 * combined cheap ->
  (totalAmount dear < totalAmount cheap)%Q.
Proof.
  intros Hc Hd Hlt.
  destruct (totalAmount_cases cheap) as [[_ ->]|[H _]]; [|lia].
  destruct (totalAmount_cases dear) as [[H _]|[_ ->]]; [lia|].
  pose proof (discounted_close _ Hd) as Hb.
  apply Qabs_Qle_condition in Hb.
  change (1 # 2 ^ 52)%Q with (1 # 4503599627370496)%Q in Hb.
  assert (H1 : (19 * inject_Z (combined dear) + 1
                <= 20 * inject_Z (combined cheap))%Q).
  { change 19%Q with (inject_Z 19). change 20%Q with (inject_Z 20).
    change 1%Q with (inject_Z 1).
    rewrite <- !inject_Z_mult, <- inject_Z_plus, <- Zle_Qle. lia. }
  assert (H2 : (inject_Z (combined cheap) <= 1000)%Q).
  { change 1000%Q with (inject_Z 1000). now rewrite <- Zle_Qle. }
  pose proof (above_threshold _ Hd) as H3.
  set (C := inject_Z (combined cheap)) in *.
  set (D := inject_Z (combined dear)) in *.
  set (b := times D DISCOUNT_RATIO) in *.
  lra.
Qed.

Lemma discount_inversion_witness :
  (totalAmount [voucher] < totalAmount [desk])%Q.
Proof.
  apply (discount_inversion [desk] [voucher]); vm_compute;
    reflexivity || discriminate.
Defined.

(** X6. A discounted total is a whole number whenever the combined price
    is a multiple of 20 and, for a combined price below 2^47, only
    then. *)
Theorem discount_whole (data : list Product.t) :
  1000 < combined data ->
  ((20 | combined data) ->
   exists n : Z, (totalAmount data == inject_Z n)%Q) /\
  (combined data < 2 ^ 47 ->
   (exists n : Z, (totalAmount data == inject_Z n)%Q) ->
   (20 | combined data)).
Proof.
  intros Hgt.
  destruct (totalAmount_cases data) as [[Hle _]|[_ ->]]; [lia|].
  split.
  - now apply discounted_whole_of_multiple.
  - intros Hb [n Hn].
    apply (discounted_multiple_of_whole (combined data) n); auto.
Qed.

Lemma discount_whole_witness :
  ((20 | combined [voucher]) ->
   exists n : Z, (totalAmount [voucher] == inject_Z n)%Q) /\
  (combined [voucher] < 2 ^ 47 ->
   (exists n : Z, (totalAmount [voucher] == inject_Z n)%Q) ->
   (20 | combined [voucher])).
Proof.
  apply (discount_whole [voucher]). reflexivity.
Defined.

(** ** What order creation accepts and what it resolves *)

Section Acceptance.

Variable Joi_number : json -> bool.
Variable parseInt : json -> Z -> option Z.

(** X8. Order creation answers 201 exactly when the body passes the
    schema and at least one product resolves; the key it returns is the
    next key of the order table; with any other answer the store is left
    as it was. *)
Theorem creation_outcome (body : json) (st : store) :
  let r := post_orders Joi_number parseInt body st in
  ((exists k, fst r = Created k) <->
   validate_orderSchema Joi_number body = [] /\
   resolved parseInt body st <> []) /\
  (forall k, fst r = Created k -> k = Order.next_id (orders st)) /\
  ((forall k, fst r <> Created k) -> snd r = st).
Proof.
  intros r. subst r.
  destruct (validate_orderSchema Joi_number body) as [|d ds] eqn:Hv.
  - destruct (resolved parseInt body st) as [|p ps] eqn:Hr.
    + rewrite (post_orders_unknown Joi_number parseInt body st Hv Hr).
      simpl. split; [split|split].
      * intros [k Hk]. discriminate.
      * intros [_ H]. congruence.
      * discriminate.
      * reflexivity.
    + assert (Hne : resolved parseInt body st <> []) by congruence.
      rewrite (post_orders_created Joi_number parseInt body st Hv Hne).
      simpl. split; [split|split].
      * intros _. split; [reflexivity | discriminate].
      * intros _. now exists (Order.next_id (orders st)).
      * intros k Hk. congruence.
      * intros H. now destruct (H (Order.next_id (orders st))).
  - rewrite (post_orders_invalid Joi_number parseInt body st d ds Hv).
    simpl. split; [split|split].
    + intros [k Hk]. discriminate.
    + intros [H _]. discriminate.
    + discriminate.
    + reflexivity.
Qed.

Lemma existsb_key (p : Product.t) (ids : list (option Z)) :
  existsb (fun i => match i with
                    | Some k => Product.id p =? k
                    | None => false
                    end) ids = true
  <-> In (Some (Product.id p)) ids.
Proof.
  rewrite existsb_exists. split.
  - intros ([k|] & Hin & Hk); [|discriminate].
    apply Z.eqb_eq in Hk. now subst.
  - intros H. exists (Some (Product.id p)). split; [assumption|].
    apply Z.eqb_refl.
Qed.

Lemma productList_same_keys (l1 l2 : list json) (st : store) :
  (forall p, In p (products st) ->
             (In (Some (Product.id p)) (coerced parseInt l1) <->
              In (Some (Product.id p)) (coerced parseInt l2))) ->
  productList parseInt l1 st = productList parseInt l2 st.
Proof.
  intros H. unfold productList, Product.findAll_in.
  apply filter_ext_in. intros p Hp. specialize (H p Hp).
  rewrite <- !existsb_key in H.
  destruct (existsb _ (coerced parseInt l1)),
           (existsb _ (coerced parseInt l2)); intuition congruence.
Qed.

(** X9. Only the set of catalog keys named by the product list counts:
    two accepted product lists that name the same products of the
    catalog, whatever the repetitions, the order of the entries and the
    entries that name no product, get the same answer and leave the same
    store. *)
Theorem creation_by_key_set (l1 l2 : list json) (st : store) :
  validate_orderSchema Joi_number (order_of l1) = [] ->
  validate_orderSchema Joi_number (order_of l2) = [] ->
  (forall p, In p (products st) ->
             (In (Some (Product.id p)) (coerced parseInt l1) <->
              In (Some (Product.id p)) (coerced parseInt l2))) ->
  post_orders Joi_number parseInt (order_of l1) st
  = post_orders Joi_number parseInt (order_of l2) st.
Proof.
  intros H1 H2 Hk. unfold post_orders. rewrite H1, H2. simpl.
  rewrite (productList_same_keys l1 l2 st Hk).
  destruct (productList parseInt l2 st); reflexivity.
Qed.

End Acceptance.

Lemma creation_by_key_set_witness :
  post_orders Decimal.Joi_number Decimal.parseInt
              (order_of [JStr "1"; JNum 1; JNum 9]) shop
  = post_orders Decimal.Joi_number Decimal.parseInt
                (order_of [JNum 1]) shop.
Proof.
  apply (creation_by_key_set Decimal.Joi_number Decimal.parseInt
           [JStr "1"; JNum 1; JNum 9] [JNum 1] shop).
  - reflexivity.
  - reflexivity.
  - intros p [<-|[<-|[]]]; vm_compute; split; intros H;
      repeat (destruct H as [H|H]; try discriminate H); auto.
Defined.

(** ** Reading back what the handlers wrote *)

Lemma find_app_l {A} (f : A -> bool) (l l' : list A) (x : A) :
  find f l = Some x -> find f (l ++ l') = Some x.
Proof.
  induction l as [|a l IH]; simpl; [discriminate|].
  destruct (f a); auto.
Qed.

Lemma find_app_r {A} (f : A -> bool) (l l' : list A) :
  find f l = None -> find f (l ++ l') = find f l'.
Proof.
  induction l as [|a l IH]; simpl; [reflexivity|].
  destruct (f a); [discriminate | auto].
Qed.

Lemma findById_fresh (tb : Order.table) (k : Z) :
  (forall j, In j (map Order.id (Order.rows tb)) -> j < k) ->
  Order.findById k tb = None.
Proof.
  intros H. unfold Order.findById.
  destruct (find _ (Order.rows tb)) as [o|] eqn:Hf; [|reflexivity].
  apply find_some in Hf as [Hin Hk]. apply Z.eqb_eq in Hk.
  specialize (H (Order.id o) (in_map Order.id _ _ Hin)). lia.
Qed.

Lemma findById_with_order (o : Order.t) (st : store) (k : Z) :
  k <> Order.id o ->
  Order.findById k (orders (with_order o st))
  = Order.findById k (orders st).
Proof.
  intros Hk. unfold Order.findById, with_order. simpl.
  destruct (find (fun r => Order.id r =? k) (Order.rows (orders st)))
    as [r|] eqn:Hf.
  - now apply find_app_l.
  - rewrite (find_app_r _ _ _ Hf). simpl.
    destruct (Order.id o =? k) eqn:He; [|reflexivity].
    apply Z.eqb_eq in He. congruence.
Qed.

Lemma post_orders_cases (Joi_number : json -> bool)
      (parseInt : json -> Z -> option Z) (body : json) (st : store) :
  post_orders Joi_number parseInt body st
  = (Created (Order.next_id (orders st)),
     with_order (new_order parseInt body st) st) \/
  snd (post_orders Joi_number parseInt body st) = st.
Proof.
  destruct (validate_orderSchema Joi_number body) as [|d ds] eqn:Hv.
  - destruct (resolved parseInt body st) as [|p ps] eqn:Hr.
    + right. now rewrite (post_orders_unknown _ _ body st Hv Hr).
    + left. apply post_orders_created; [assumption | congruence].
  - right. now rewrite (post_orders_invalid _ _ body st d ds Hv).
Qed.

(** X10. Create, then read.  On a consistent store, [GET /orders/:id]
    under the key that [POST /orders] answered 201 with returns the row
    just created: pending, with the three amounts computed from the
    resolved items. *)
Theorem created_order_readable
        (Joi_number : json -> bool) (parseInt : json -> Z -> option Z)
        (body : json) (st st' : store) (k : Z) :
  consistent st ->
  post_orders Joi_number parseInt body st = (Created k, st') ->
  let items := resolved parseInt body st in
  exists o : Order.t,
    get_order k st' = Json (JObj (Order.toJSON o)) /\
    Order.findById k (orders st') = Some o /\
    Order.id o = k /\
    Order.status o = "pending" /\
    Order.shipment_amount o = orderShipmentPrice items /\
    Order.total_amount o = Some (totalAmount items) /\
    Order.total_weight o = Some (orderTotalWeight items).
Proof.
  intros [[_ Hlt] _] Hp items.
  destruct (post_orders_cases Joi_number parseInt body st) as [Hc|Hs].
  - rewrite Hc in Hp. injection Hp as <- <-.
    exists (new_order parseInt body st).
    assert (Hf : Order.findById (Order.next_id (orders st))
                   (orders (with_order (new_order parseInt body st) st))
                 = Some (new_order parseInt body st)).
    { unfold Order.findById, with_order. simpl.
      rewrite (find_app_r _ _ _ (findById_fresh (orders st) _ Hlt)).
      simpl. now rewrite Z.eqb_refl. }
    unfold get_order. rewrite Hf. repeat split.
  - exfalso. rewrite Hp in Hs. simpl in Hs. subst st'.
    pose proof (creation_outcome Joi_number parseInt body st) as (Hi & _ & _).
    destruct (proj1 Hi) as [Hv Hr]; [exists k; now rewrite Hp|].
    rewrite (post_orders_created _ _ body st Hv Hr) in Hp.
    injection Hp as _ Heq.
    apply (f_equal (fun s => List.length (Order.rows (orders s)))) in Heq.
    simpl in Heq. rewrite length_app in Heq. simpl in Heq. lia.
Qed.

Lemma created_order_readable_witness :
  exists o : Order.t,
    get_order 1 (snd (post_orders Decimal.Joi_number Decimal.parseInt
                                  (order_of [JNum 2]) shop))
    = Json (JObj (Order.toJSON o)) /\
    Order.findById 1
      (orders (snd (post_orders Decimal.Joi_number Decimal.parseInt
                                (order_of [JNum 2]) shop)))
    = Some o /\
    Order.id o = 1 /\
    Order.status o = "pending" /\
    Order.shipment_amount o = orderShipmentPrice [voucher] /\
    Order.total_amount o = Some (totalAmount [voucher]) /\
    Order.total_weight o = Some (orderTotalWeight [voucher]).
Proof.
  apply (created_order_readable Decimal.Joi_number Decimal.parseInt
           (order_of [JNum 2]) shop).
  - repeat split; simpl; try constructor; intros k [].
  - reflexivity.
Defined.

(** X11. Order creation, whatever its answer, leaves every order that
    was there, the catalog and the bills as they were. *)
Theorem creation_frame
        (Joi_number : json -> bool) (parseInt : json -> Z -> option Z)
        (body : json) (st : store) (k : Z) :
  k <> Order.next_id (orders st) ->
  let st' := snd (post_orders Joi_number parseInt body st) in
  get_order k st' = get_order k st /\
  products st' = products st /\
  bills st' = bills st.
Proof.
  intros Hk st'. subst st'.
  destruct (post_orders_cases Joi_number parseInt body st) as [Hc|Hs].
  - rewrite Hc. simpl. split; [|split; reflexivity].
    unfold get_order. now rewrite findById_with_order.
  - rewrite Hs. auto.
Qed.

Lemma creation_frame_witness :
  let st' := snd (post_orders Decimal.Joi_number Decimal.parseInt
                              (order_of [JNum 1]) ledger) in
  get_order 1 st' = get_order 1 ledger /\
  products st' = products ledger /\
  bills st' = bills ledger.
Proof.
  apply (creation_frame Decimal.Joi_number Decimal.parseInt
           (order_of [JNum 1]) ledger 1).
  discriminate.
Defined.

(** ** What a status transition leaves alone *)

Lemma put_order_status_cases (id : Z) (body : json) (st : store) :
  (exists o s,
      Order.findById id (orders st) = Some o /\
      prop "status" body = Some (JStr s) /\
      In s statuses /\
      put_order_status id body st = (Ok, transitioned o s st)) \/
  (fst (put_order_status id body st) <> Ok /\
   snd (put_order_status id body st) = st).
Proof.
  destruct (Order.findById id (orders st)) as [o|] eqn:Ho.
  - destruct (prop "status" body) as [[| | |s| |]|] eqn:Hs;
      try (right; unfold put_order_status; rewrite Ho, Hs;
           split; [discriminate | reflexivity]).
    destruct (includes ["pending"; "paid"; "cancelled"] s) eqn:Hi.
    + left. exists o, s. apply includes_In in Hi.
      repeat split; try assumption.
      now apply put_order_status_ok.
    + right. unfold put_order_status. rewrite Ho, Hs, Hi.
      split; [discriminate | reflexivity].
  - right. unfold put_order_status. rewrite Ho.
    split; [discriminate | reflexivity].
Qed.

Lemma findById_update_other (k : Z) (tb : Order.table) (o : Order.t)
      (s : string) :
  k <> Order.id o ->
  Order.findById k (Order.update_status o s tb) = Order.findById k tb.
Proof.
  intros Hk. unfold Order.findById, Order.update_status. simpl.
  induction (Order.rows tb) as [|r rows IH]; simpl; [reflexivity|].
  destruct (Order.id r =? Order.id o) eqn:Hr; simpl.
  - apply Z.eqb_eq in Hr.
    destruct (Order.id r =? k) eqn:Hrk; [|exact IH].
    apply Z.eqb_eq in Hrk. congruence.
  - destruct (Order.id r =? k); [reflexivity | exact IH].
Qed.

(** X12. A status transition on one order leaves every other order as
    it was, whatever its answer. *)
Theorem transition_frame (id : Z) (body : json) (st : store) (k : Z) :
  k <> id ->
  get_order k (snd (put_order_status id body st)) = get_order k st.
Proof.
  intros Hk.
  destruct (put_order_status_cases id body st)
    as [(o & s & Ho & _ & _ & ->)|[_ ->]]; [|reflexivity].
  unfold get_order. simpl. rewrite findById_update_other; [reflexivity|].
  now rewrite (findById_id _ _ _ Ho).
Qed.

Lemma transition_frame_witness :
  get_order 2 (snd (put_order_status 1 paying ledger)) = get_order 2 ledger.
Proof.
  apply (transition_frame 1 paying ledger 2). discriminate.
Defined.

(** X13. A status transition never adds or removes an order and never
    changes a key, an amount or a weight; it leaves the next key and the
    catalog alone. *)
Theorem transition_keeps_amounts (id : Z) (body : json) (st : store) :
  let st' := snd (put_order_status id body st) in
  let amounts (o : Order.t) :=
    (Order.id o, Order.shipment_amount o,
     Order.total_amount o, Order.total_weight o) in
  map amounts (Order.rows (orders st'))
  = map amounts (Order.rows (orders st)) /\
  Order.next_id (orders st') = Order.next_id (orders st) /\
  products st' = products st.
Proof.
  intros st' amounts. subst st'.
  destruct (put_order_status_cases id body st)
    as [(o & s & _ & _ & _ & ->)|[_ ->]]; [|auto].
  simpl. split; [|auto]. rewrite map_map. apply map_ext.
  intros r. destruct (Order.id r =? Order.id o); reflexivity.
Qed.

Lemma update_status_twice (o : Order.t) (s : string) (tb : Order.table) :
  Order.update_status (Order.set_status s o) s (Order.update_status o s tb)
  = Order.update_status o s tb.
Proof.
  unfold Order.update_status. simpl. f_equal.
  rewrite map_map. apply map_ext. intros r.
  destruct (Order.id r =? Order.id o) eqn:Hr; simpl; rewrite Hr;
    reflexivity.
Qed.

(** X14. Repeating a transition request changes nothing more in the
    order table; unless it asks for ["paid"], it changes nothing at
    all. *)
Theorem transition_idempotent (id : Z) (body : json) (st : store) :
  let st1 := snd (put_order_status id body st) in
  let st2 := snd (put_order_status id body st1) in
  orders st2 = orders st1 /\
  (prop "status" body <> Some (JStr "paid") -> st2 = st1).
Proof.
  intros st1 st2. subst st2 st1.
  destruct (put_order_status_cases id body st)
    as [(o & s & Ho & Hs & Hin & H1)|[_ H1]].
  - rewrite H1. simpl.
    assert (Ho1 : Order.findById id (orders (transitioned o s st))
                  = Some (Order.set_status s o))
      by (simpl; now apply findById_update_status).
    rewrite (put_order_status_ok id body _ _ s Ho1 Hs Hin). simpl.
    rewrite update_status_twice. split; [reflexivity|].
    intros Hnp. unfold transitioned at 1. simpl.
    rewrite update_status_twice.
    destruct (String.eqb s "paid") eqn:He.
    + apply String.eqb_eq in He. subst s. contradiction.
    + unfold transitioned. rewrite He. reflexivity.
  - rewrite H1, H1. auto.
Qed.

Lemma transition_idempotent_witness :
  let body := JObj [("status", JStr "cancelled")] in
  let st1 := snd (put_order_status 1 body ledger) in
  let st2 := snd (put_order_status 1 body st1) in
  st2 = st1.
Proof.
  apply (transition_idempotent 1 (JObj [("status", JStr "cancelled")]) ledger).
  discriminate.
Defined.

(** X15. A transition request adds no bill unless it asks for ["paid"]
    and is answered 200. *)
Theorem no_bill_unless_paid (id : Z) (body : json) (st : store) :
  prop "status" body <> Some (JStr "paid") \/
  fst (put_order_status id body st) <> Ok ->
  bills (snd (put_order_status id body st)) = bills st.
Proof.
  intros H.
  destruct (put_order_status_cases id body st)
    as [(o & s & Ho & Hs & Hin & H1)|[_ H1]].
  - rewrite H1 in *. simpl in *.
    destruct H as [H|H]; [|contradiction].
    destruct (String.eqb s "paid") eqn:He; [|reflexivity].
    apply String.eqb_eq in He. subst s. contradiction.
  - now rewrite H1.
Qed.

Lemma no_bill_unless_paid_witness :
  bills (snd (put_order_status 1 (JObj [("status", JStr "pending")]) ledger))
  = bills ledger.
Proof.
  apply (no_bill_unless_paid 1 (JObj [("status", JStr "pending")]) ledger).
  left. discriminate.
Defined.

(** ** Invariants of the store *)

Lemma keys_ok_snoc (ids : list Z) (next : Z) :
  keys_ok ids next -> keys_ok (ids ++ [next]) (next + 1).
Proof.
  intros [Hnd Hlt]. split.
  - apply NoDup_app; [assumption | repeat constructor; intros [] | ].
    intros k Hk [E|[]]. specialize (Hlt k Hk). lia.
  - intros k Hk. apply in_app_or in Hk as [Hk|[E|[]]].
    + specialize (Hlt k Hk). lia.
    + lia.
Qed.

Lemma keys_ok_nil (next : Z) : keys_ok [] next.
Proof. split; [constructor | intros k []]. Qed.

Lemma update_status_ids (o : Order.t) (s : string) (tb : Order.table) :
  map Order.id (Order.rows (Order.update_status o s tb))
  = map Order.id (Order.rows tb).
Proof.
  simpl. rewrite map_map. apply map_ext. intros r.
  destruct (Order.id r =? Order.id o); reflexivity.
Qed.

Section Machine.

Variable Joi_number : json -> bool.
Variable parseInt : json -> Z -> option Z.

Lemma step_consistent (st : store) (r : request) :
  consistent st -> consistent (step Joi_number parseInt st r).
Proof.
  intros [Ho Hb]. unfold consistent.
  destruct r as [body|id body| | |]; simpl.
  - destruct (post_orders_cases Joi_number parseInt body st) as [Hc|Hs].
    + rewrite Hc. simpl. split; [|exact Hb].
      rewrite map_app. simpl. now apply keys_ok_snoc.
    + rewrite Hs. now split.
  - destruct (put_order_status_cases id body st)
      as [(o & s & _ & _ & _ & ->)|[_ ->]]; [|now split].
    simpl. split.
    + rewrite map_map.
      erewrite map_ext; [exact Ho|]. intros r. simpl.
      destruct (Order.id r =? Order.id o); reflexivity.
    + destruct (String.eqb s "paid"); [|exact Hb].
      simpl. rewrite map_app. simpl. now apply keys_ok_snoc.
  - split; [apply keys_ok_nil | exact Hb].
  - split; [exact Ho | apply keys_ok_nil].
  - now split.
Qed.

Lemma new_order_priced (body : json) (st : store) :
  priced (new_order parseInt body st).
Proof.
  unfold priced, new_order. simpl. split; [auto|]. split; [discriminate|].
  exists (orderTotalWeight (resolved parseInt body st)).
  split; [reflexivity|].
  unfold orderShipmentPrice. now rewrite Math_round_tenth.
Qed.

Lemma step_priced (st : store) (r : request) :
  Forall priced (Order.rows (orders st)) ->
  Forall priced (Order.rows (orders (step Joi_number parseInt st r))).
Proof.
  intros H. destruct r as [body|id body| | |]; simpl; try assumption.
  - destruct (post_orders_cases Joi_number parseInt body st) as [Hc|Hs].
    + rewrite Hc. simpl. apply Forall_app. split; [assumption|].
      constructor; [apply new_order_priced | constructor].
    + now rewrite Hs.
  - destruct (put_order_status_cases id body st)
      as [(o & s & _ & _ & Hin & ->)|[_ ->]]; [|assumption].
    simpl. apply Forall_map. eapply Forall_impl; [|exact H].
    intros r (Hs & Ha & Hw).
    destruct (Order.id r =? Order.id o); [|now repeat split].
    repeat split; assumption.
  - constructor.
Qed.

(** X16. Keys stay unique.  Whatever requests follow one another, on a
    store whose order keys and bill keys are distinct and below the next
    key of their table they remain so. *)
Theorem run_consistent (rs : list request) (st : store) :
  consistent st -> consistent (run Joi_number parseInt rs st).
Proof.
  unfold run. revert st. induction rs as [|r rs IH]; intros st H; simpl.
  - exact H.
  - apply IH. now apply step_consistent.
Qed.

(** X17. Whatever requests follow one another, every stored order keeps
    one of the three statuses, has both totals, and has the shipment
    amount that its total weight gives: 25 times the quotient, rounded
    down, of the weight plus 5 by 10. *)
Theorem run_priced (rs : list request) (st : store) :
  Forall priced (Order.rows (orders st)) ->
  Forall priced (Order.rows (orders (run Joi_number parseInt rs st))).
Proof.
  unfold run. revert st. induction rs as [|r rs IH]; intros st H; simpl.
  - exact H.
  - apply IH. now apply step_priced.
Qed.

(** X18. As long as the bills are not cleared, the number of bills grows
    by exactly the number of transitions to ["paid"] that were answered
    200. *)
Theorem run_bills_count (rs : list request) (st : store) :
  ~ In DELETE_bills rs ->
  List.length (Bill.rows (bills (run Joi_number parseInt rs st)))
  = (List.length (Bill.rows (bills st))
     + paid_count Joi_number parseInt rs st)%nat.
Proof.
  unfold run. revert st. induction rs as [|r rs IH]; intros st Hn; simpl.
  - lia.
  - rewrite IH by (intros H; apply Hn; now right).
    assert (Hr : r <> DELETE_bills) by (intros ->; apply Hn; now left).
    destruct r as [body|id body| | |]; simpl; try lia; try congruence.
    + destruct (post_orders_cases Joi_number parseInt body st) as [Hc|Hs].
      * rewrite Hc. simpl. lia.
      * rewrite Hs. lia.
    + destruct (put_order_status_cases id body st)
        as [(o & s & _ & Hs & _ & H1)|[Hf H1]].
      * rewrite H1, Hs. simpl.
        destruct (String.eqb s "paid") eqn:He.
        -- apply String.eqb_eq in He. subst s. simpl.
           rewrite length_app. simpl. lia.
        -- assert (Hne : s <> "paid") by now apply String.eqb_neq.
           assert (H0 : match s with
                        | "paid" => 1%nat | _ => 0%nat end = 0%nat).
           { clear -Hne.
             repeat (destruct s as [|[[] [] [] [] [] [] [] []] s];
                     try reflexivity).
             congruence. }
           rewrite H0. lia.
      * rewrite H1.
        destruct (put_order_status id body st) as [resp st'] eqn:Hp.
        simpl in *. subst st'.
        destruct resp; try lia. congruence.
Qed.

(** X19. Order creations, status transitions and the clearing of the
    orders or of the bills, in any number and order, never change what
    [GET /products/:id] answers. *)
Theorem run_keeps_catalog (rs : list request) (st : store) (k : Z) :
  ~ In DELETE_products rs ->
  get_product k (run Joi_number parseInt rs st) = get_product k st.
Proof.
  intros Hn. unfold get_product.
  replace (products (run Joi_number parseInt rs st)) with (products st);
    [reflexivity|].
  unfold run. revert st. induction rs as [|r rs IH]; intros st; simpl.
  - reflexivity.
  - rewrite <- IH by (intros H; apply Hn; now right).
    assert (Hr : r <> DELETE_products) by (intros ->; apply Hn; now left).
    destruct r as [body|id body| | |]; simpl; try reflexivity;
      try congruence.
    + destruct (post_orders_cases Joi_number parseInt body st) as [Hc|Hs].
      * now rewrite Hc.
      * now rewrite Hs.
    + destruct (put_order_status_cases id body st)
        as [(o & s & _ & _ & _ & ->)|[_ ->]]; reflexivity.
Qed.

End Machine.

Lemma opened_consistent (catalog : list Product.t) :
  consistent (opened catalog).
Proof. split; apply keys_ok_nil. Qed.

Lemma run_consistent_witness :
  consistent (run Decimal.Joi_number Decimal.parseInt session
                  (opened [chair; voucher])).
Proof.
  apply (run_consistent Decimal.Joi_number Decimal.parseInt session
           (opened [chair; voucher])).
  apply opened_consistent.
Defined.

Lemma run_priced_witness :
  Forall priced
         (Order.rows (orders (run Decimal.Joi_number Decimal.parseInt session
                                  (opened [chair; voucher])))).
Proof.
  apply (run_priced Decimal.Joi_number Decimal.parseInt session
           (opened [chair; voucher])).
  constructor.
Defined.

Lemma run_bills_count_witness :
  List.length
    (Bill.rows (bills (run Decimal.Joi_number Decimal.parseInt session
                           (opened [chair; voucher]))))
  = (List.length (Bill.rows (bills (opened [chair; voucher])))
     + paid_count Decimal.Joi_number Decimal.parseInt session
                  (opened [chair; voucher]))%nat.
Proof.
  apply (run_bills_count Decimal.Joi_number Decimal.parseInt session
           (opened [chair; voucher])).
  intros H. simpl in H.
  repeat (destruct H as [H|H]; try discriminate H). exact H.
Defined.

Lemma run_keeps_catalog_witness :
  get_product 2 (run Decimal.Joi_number Decimal.parseInt session
                     (opened [chair; voucher]))
  = get_product 2 (opened [chair; voucher]).
Proof.
  apply (run_keeps_catalog Decimal.Joi_number Decimal.parseInt session
           (opened [chair; voucher]) 2).
  intros H. simpl in H.
  repeat (destruct H as [H|H]; try discriminate H). exact H.
Defined.

(** ** Clearing the orders *)

(** X20. After [DELETE /orders] no order can be read or moved to another
    status, the bills and the catalog are as before, and on a consistent
    store an order created afterwards gets a key that no cleared order
    had. *)
Theorem orders_cleared
        (Joi_number : json -> bool) (parseInt : json -> Z -> option Z)
        (st : store) :
  consistent st ->
  let st1 := snd (delete_orders st) in
  (forall k, get_order k st1 = Missing) /\
  (forall k body, put_order_status k body st1 = (Not_found, st1)) /\
  bills st1 = bills st /\
  products st1 = products st /\
  (forall body k,
      fst (post_orders Joi_number parseInt body st1) = Created k ->
      ~ In k (map Order.id (Order.rows (orders st)))).
Proof.
  intros [[_ Hlt] _] st1. subst st1. simpl.
  repeat split.
  intros body k Hk Hin.
  pose proof (creation_outcome Joi_number parseInt body
                (snd (delete_orders st))) as (_ & Hkey & _).
  specialize (Hkey k Hk). simpl in Hkey.
  specialize (Hlt k Hin). lia.
Qed.

Lemma orders_cleared_witness :
  let st1 := snd (delete_orders ledger) in
  (forall k, get_order k st1 = Missing) /\
  (forall k body, put_order_status k body st1 = (Not_found, st1)) /\
  bills st1 = bills ledger /\
  products st1 = products ledger /\
  (forall body k,
      fst (post_orders Decimal.Joi_number Decimal.parseInt body st1)
      = Created k ->
      ~ In k (map Order.id (Order.rows (orders ledger)))).
Proof.
  apply (orders_cleared Decimal.Joi_number Decimal.parseInt ledger).
  split; split; simpl.
  - repeat constructor. intros [].
  - intros k [<-|[]]. reflexivity.
  - repeat constructor. intros [].
  - intros k [<-|[]]. reflexivity.
Defined.

(** ** The bills *)

Section Bills.

Variable Joi_number : json -> bool.
Variable parseInt : json -> Z -> option Z.

Lemma step_bills_grow (st : store) (r : request) :
  r <> DELETE_bills ->
  exists added,
    Bill.rows (bills (step Joi_number parseInt st r))
    = Bill.rows (bills st) ++ added.
Proof.
  intros Hr. destruct r as [body|id body| | |]; simpl;
    try (exists []; now rewrite app_nil_r); try congruence.
  - destruct (post_orders_cases Joi_number parseInt body st) as [Hc|Hs].
    + rewrite Hc. exists []. now rewrite app_nil_r.
    + rewrite Hs. exists []. now rewrite app_nil_r.
  - destruct (put_order_status_cases id body st)
      as [(o & s & _ & _ & _ & ->)|[_ ->]];
      [|exists []; now rewrite app_nil_r].
    simpl. destruct (String.eqb s "paid"); simpl.
    + eexists. reflexivity.
    + exists []. now rewrite app_nil_r.
Qed.

(** X21. Bills are only ever appended: as long as the bills are not
    cleared, [GET /bills] answers with the entries it had before, in the
    same order and unchanged, followed by the new ones. *)
Theorem run_bills_append_only (rs : list request) (st : store) :
  ~ In DELETE_bills rs ->
  exists added,
    get_bills (run Joi_number parseInt rs st)
    = Json (JArr (map (fun b => JObj (Bill_toJSON b)) (Bill.rows (bills st))
                  ++ map (fun b => JObj (Bill_toJSON b)) added)).
Proof.
  intros Hn. unfold get_bills.
  assert (H : exists added,
             Bill.rows (bills (run Joi_number parseInt rs st))
             = Bill.rows (bills st) ++ added).
  { unfold run. revert st. induction rs as [|r rs IH]; intros st; simpl.
    - exists []. now rewrite app_nil_r.
    - destruct (IH (fun H => Hn (or_intror H))
                   (step Joi_number parseInt st r)) as [l2 H2].
      destruct (step_bills_grow st r) as [l1 H1].
      { intros ->. apply Hn. now left. }
      exists (l1 ++ l2). now rewrite H2, H1, app_assoc. }
  destruct H as [added ->]. exists added. now rewrite map_app.
Qed.

Lemma find_In {A} (f : A -> bool) (l : list A) (x : A) :
  find f l = Some x -> In x l.
Proof. intros H. now apply find_some in H. Qed.

Lemma step_billed (st : store) (r : request) :
  r <> DELETE_orders ->
  billed st -> billed (step Joi_number parseInt st r).
Proof.
  intros Hr Hb. destruct r as [body|id body| | |]; simpl;
    try congruence; try exact Hb.
  - destruct (post_orders_cases Joi_number parseInt body st) as [Hc|Hs].
    + rewrite Hc. intros b Hin. simpl in *.
      destruct (Hb b Hin) as (o & Ho & Ha).
      exists o. split; [apply in_or_app; now left | exact Ha].
    + now rewrite Hs.
  - destruct (put_order_status_cases id body st)
      as [(o & s & Ho & _ & _ & ->)|[_ ->]]; [|exact Hb].
    assert (Hkeep : forall o0, In o0 (Order.rows (orders st)) ->
              exists o1,
                In o1 (Order.rows (Order.update_status o s (orders st))) /\
                Order.total_amount o1 = Order.total_amount o0).
    { intros o0 Hin.
      exists (if Order.id o0 =? Order.id o
              then Order.set_status s o0 else o0).
      split.
      - simpl. apply in_map_iff. exists o0. now split.
      - destruct (Order.id o0 =? Order.id o); reflexivity. }
    intros b Hin. simpl in Hin.
    assert (Hold : In b (Bill.rows (bills st)) ->
              exists o1,
                In o1 (Order.rows (Order.update_status o s (orders st))) /\
                Order.total_amount o1 = Bill.total_amount b).
    { intros Hin0. destruct (Hb b Hin0) as (o0 & Ho0 & Ha).
      destruct (Hkeep o0 Ho0) as (o1 & Ho1 & Ha1).
      exists o1. split; [exact Ho1 | congruence]. }
    destruct (String.eqb s "paid"); [|now apply Hold].
    simpl in Hin. apply in_app_or in Hin as [Hin|[<-|[]]];
      [now apply Hold|].
    simpl. apply Hkeep. unfold Order.findById in Ho.
    now apply find_In in Ho.
  - intros b [].
Qed.

(** X22. As long as the orders are not cleared, every bill carries the
    total amount of an order that is in the store. *)
Theorem run_billed (rs : list request) (st : store) :
  ~ In DELETE_orders rs ->
  billed st -> billed (run Joi_number parseInt rs st).
Proof.
  unfold run. revert st. induction rs as [|r rs IH]; intros st Hn Hb; simpl.
  - exact Hb.
  - apply IH; [intros H; apply Hn; now right|].
    apply step_billed; [intros ->; apply Hn; now left | exact Hb].
Qed.

End Bills.

Lemma run_bills_append_only_witness :
  exists added,
    get_bills (run Decimal.Joi_number Decimal.parseInt session ledger)
    = Json (JArr (map (fun b => JObj (Bill_toJSON b))
                      (Bill.rows (bills ledger))
                  ++ map (fun b => JObj (Bill_toJSON b)) added)).
Proof.
  apply (run_bills_append_only Decimal.Joi_number Decimal.parseInt
           session ledger).
  intros H. simpl in H.
  repeat (destruct H as [H|H]; try discriminate H). exact H.
Defined.

Lemma run_billed_witness :
  billed (run Decimal.Joi_number Decimal.parseInt
              [POST_orders (order_of [JNum 1]); PUT_orders_status 1 paying;
               PUT_orders_status 2 paying]
              ledger).
Proof.
  apply (run_billed Decimal.Joi_number Decimal.parseInt
           [POST_orders (order_of [JNum 1]); PUT_orders_status 1 paying;
            PUT_orders_status 2 paying]
           ledger).
  - intros H. simpl in H.
    repeat (destruct H as [H|H]; try discriminate H). exact H.
  - intros b [<-|[]]. eexists. split; [now left | reflexivity].
Defined.

(** ** The listings *)

Lemma by_attribute_consistent {A} (lt : A -> A -> bool) :
  strict_weak lt -> consistent_comparator (by_attribute lt).
Proof.
  intros (Hirr & Htr & Hneg). unfold consistent_comparator, by_attribute.
  assert (Hasym : forall a b, lt a b = true -> lt b a = false).
  { intros a b Hab. destruct (lt b a) eqn:Hba; [|reflexivity].
    rewrite <- (Hirr a). symmetry. now apply (Htr a b a). }
  repeat split.
  - intros a. now rewrite Hirr.
  - intros a b. destruct (lt a b) eqn:Hab, (lt b a) eqn:Hba; lia.
  - intros a b c.
    destruct (lt a b) eqn:Hab; [lia|]. destruct (lt b a) eqn:Hba; [lia|].
    destruct (lt b c) eqn:Hbc; [lia|]. destruct (lt c b) eqn:Hcb; [lia|].
    intros _ _. now rewrite (Hneg a b c Hab Hbc), (Hneg c b a Hcb Hba).
  - intros a b c.
    destruct (lt a b) eqn:Hab; [|destruct (lt b a); lia].
    destruct (lt b c) eqn:Hbc; [|destruct (lt c b); lia].
    intros _ _. now rewrite (Htr a b c Hab Hbc).
  - intros a b c.
    destruct (lt a b) eqn:Hab; [lia|]. destruct (lt b a) eqn:Hba; [|lia].
    destruct (lt b c) eqn:Hbc; [lia|]. destruct (lt c b) eqn:Hcb; [|lia].
    intros _ _. rewrite (Hasym c a (Htr c b a Hcb Hba)).
    rewrite (Htr c b a Hcb Hba). lia.
  - destruct (lt a b) eqn:Hab; [|destruct (lt b a); lia].
    intros _. rewrite (Hasym a b Hab). lia.
  - destruct (lt b a) eqn:Hba.
    + rewrite (Hasym b a Hba). lia.
    + destruct (lt a b); lia.
Qed.

Lemma strict_weak_Z {A} (key : A -> Z) :
  strict_weak (fun a b => key a <? key b).
Proof.
  repeat split.
  - intros a. apply Z.ltb_irrefl.
  - intros a b c Hab Hbc. apply Z.ltb_lt in Hab, Hbc. apply Z.ltb_lt. lia.
  - intros a b c Hab Hbc. apply Z.ltb_ge in Hab, Hbc. apply Z.ltb_ge. lia.
Qed.

Lemma Qgt_bool_lt (x y : Q) : Qgt_bool x y = true <-> (y < x)%Q.
Proof.
  unfold Qgt_bool. rewrite negb_true_iff. split.
  - intros H. apply Qnot_le_lt. intros Hle.
    apply Qle_bool_iff in Hle. congruence.
  - intros H. destruct (Qle_bool x y) eqn:E; [|reflexivity].
    apply Qle_bool_iff in E. exfalso. now apply (Qlt_not_le y x).
Qed.

Lemma Qgt_bool_le (x y : Q) : Qgt_bool x y = false <-> (x <= y)%Q.
Proof.
  unfold Qgt_bool. rewrite negb_false_iff. apply Qle_bool_iff.
Qed.

Lemma strict_weak_Q {A} (key : A -> Q) :
  strict_weak (fun a b => Qgt_bool (key b) (key a)).
Proof.
  repeat split.
  - intros a. apply Qgt_bool_le. apply Qle_refl.
  - intros a b c Hab Hbc. apply Qgt_bool_lt in Hab, Hbc.
    apply Qgt_bool_lt. eapply Qlt_trans; eassumption.
  - intros a b c Hab Hbc. apply Qgt_bool_le in Hab, Hbc.
    apply Qgt_bool_le. eapply Qle_trans; eassumption.
Qed.

Lemma ascii_compare_lt_trans (a b c : Ascii.ascii) :
  Ascii.compare a b = Lt -> Ascii.compare b c = Lt ->
  Ascii.compare a c = Lt.
Proof.
  unfold Ascii.compare. rewrite !N.compare_lt_iff. apply N.lt_trans.
Qed.

Lemma string_compare_lt_trans (a b c : string) :
  String.compare a b = Lt -> String.compare b c = Lt ->
  String.compare a c = Lt.
Proof.
  revert b c. induction a as [|x a IH]; intros [|y b] [|z c]; simpl;
    try discriminate; try reflexivity.
  destruct (Ascii.compare x y) eqn:Hxy; try discriminate.
  - apply Ascii.compare_eq_iff in Hxy. subst y.
    destruct (Ascii.compare x z); try discriminate; auto.
    apply IH.
  - intros _. destruct (Ascii.compare y z) eqn:Hyz; try discriminate.
    + apply Ascii.compare_eq_iff in Hyz. subst z. now rewrite Hxy.
    + now rewrite (ascii_compare_lt_trans x y z Hxy Hyz).
Qed.

Lemma string_compare_refl (a : string) : String.compare a a = Eq.
Proof.
  pose proof (String.compare_antisym a a) as H.
  destruct (String.compare a a); simpl in H; congruence.
Qed.

Lemma string_compare_gt (a b : string) :
  String.compare a b = Gt <-> String.compare b a = Lt.
Proof.
  rewrite (String.compare_antisym b a).
  destruct (String.compare a b); simpl; split; congruence.
Qed.

Lemma ltb_compare (a b : string) :
  String.ltb a b = true <-> String.compare a b = Lt.
Proof.
  unfold String.ltb. destruct (String.compare a b); split; congruence.
Qed.

Lemma strict_weak_string {A} (key : A -> string) :
  strict_weak (fun a b => String.ltb (key a) (key b)).
Proof.
  repeat split.
  - intros a. unfold String.ltb. now rewrite string_compare_refl.
  - intros a b c Hab Hbc. apply ltb_compare in Hab, Hbc.
    apply ltb_compare. eapply string_compare_lt_trans; eassumption.
  - intros a b c Hab Hbc.
    destruct (String.ltb (key a) (key c)) eqn:Hac; [|reflexivity].
    apply ltb_compare in Hac. exfalso.
    destruct (String.compare (key a) (key b)) eqn:E.
    + apply String.compare_eq_iff in E. rewrite <- E in Hbc.
      apply ltb_compare in Hac. congruence.
    + apply ltb_compare in E. congruence.
    + apply string_compare_gt in E.
      pose proof (string_compare_lt_trans _ _ _ E Hac) as H.
      apply ltb_compare in H. congruence.
Qed.

Lemma strict_weak_false {A} : strict_weak (fun _ _ : A => false).
Proof. repeat split; intros; discriminate. Qed.


Lemma order_lt_strict_weak (sort : option order_attribute) :
  strict_weak (order_lt sort).
Proof.
  destruct sort as [[]|]; simpl.
  - apply (strict_weak_Z Order.id).
  - apply (strict_weak_string Order.status).
  - apply (strict_weak_Z Order.shipment_amount).
  - apply (strict_weak_Q
             (fun o => number (fun q => q) (Order.total_amount o))).
  - apply (strict_weak_Q
             (fun o => number inject_Z (Order.total_weight o))).
  - apply strict_weak_false.
Qed.


Lemma order_lt_le (sort : option order_attribute) (a b : Order.t) :
  ~ by_attribute (order_lt sort) b a < 0 -> order_le sort a b.
Proof.
  unfold by_attribute. intros H.
  assert (Hf : order_lt sort b a = false)
    by (destruct (order_lt sort b a); [lia | reflexivity]).
  clear H. destruct sort as [[]|]; simpl in *.
  - apply Z.ltb_ge in Hf. lia.
  - intros Hgt. apply string_compare_gt in Hgt.
    apply ltb_compare in Hgt. congruence.
  - apply Z.ltb_ge in Hf. lia.
  - now apply Qgt_bool_le.
  - now apply Qgt_bool_le.
  - exact I.
Qed.

(** The insertion sort is an engine that meets the contract. *)

Lemma insert_permutation {A} (cmp : A -> A -> Z) (x : A) (l : list A) :
  Permutation (x :: l) (Insertion.insert cmp x l).
Proof.
  induction l as [|y l IH]; simpl.
  - apply Permutation_refl.
  - destruct (cmp x y <? 0).
    + apply Permutation_refl.
    + apply perm_trans with (y :: x :: l);
        [apply perm_swap | now apply perm_skip].
Qed.

Lemma insert_sorted {A} (cmp : A -> A -> Z) (x : A) (l : list A) :
  consistent_comparator cmp ->
  StronglySorted (fun a b => ~ cmp b a < 0) l ->
  StronglySorted (fun a b => ~ cmp b a < 0) (Insertion.insert cmp x l).
Proof.
  intros (Hrefl & Hsym & Heq & Hlt & Hgt & Hanti) Hs.
  induction Hs as [|y l Hs IH Hy]; simpl.
  - repeat constructor.
  - destruct (cmp x y <? 0) eqn:Hxy.
    + apply Z.ltb_lt in Hxy. constructor; [now constructor|].
      constructor.
      * intros Hyx. apply Hanti in Hyx. lia.
      * rewrite Forall_forall in *. intros z Hz Hzx.
        apply (Hy z Hz). now apply (Hlt z x y).
    + apply Z.ltb_ge in Hxy. constructor; [exact IH|].
      rewrite Forall_forall in *. intros z Hz.
      apply (Permutation_in _ (Permutation_sym
                                 (insert_permutation cmp x l))) in Hz.
      destruct Hz as [<-|Hz]; [lia | now apply Hy].
Qed.

Lemma insertion_sorts : sorts Insertion.sort.
Proof.
  intros A cmp l Hc. unfold Insertion.sort.
  assert (H : forall acc,
             StronglySorted (fun a b => ~ cmp b a < 0) acc ->
             Permutation (l ++ acc)
               (fold_left (fun sorted x => Insertion.insert cmp x sorted)
                          l acc) /\
             StronglySorted (fun a b => ~ cmp b a < 0)
               (fold_left (fun sorted x => Insertion.insert cmp x sorted)
                          l acc)).
  { induction l as [|x l IH]; intros acc Hacc; simpl.
    - split; [apply Permutation_refl | exact Hacc].
    - destruct (IH (Insertion.insert cmp x acc)
                   (insert_sorted cmp x acc Hc Hacc)) as [Hp Hs].
      split; [|exact Hs].
      eapply perm_trans; [|exact Hp].
      apply perm_trans with (l ++ x :: acc);
        [apply Permutation_middle|].
      apply Permutation_app_head. apply insert_permutation. }
  destruct (H [] (SSorted_nil _)) as [Hp Hs].
  rewrite app_nil_r in Hp. now split.
Qed.

Lemma StronglySorted_weaken {A} (R S : A -> A -> Prop) (l : list A) :
  (forall a b, R a b -> S a b) ->
  StronglySorted R l -> StronglySorted S l.
Proof.
  intros HRS. induction 1 as [|x l Hs IH Hx]; constructor.
  - exact IH.
  - eapply Forall_impl; [|exact Hx]. intros b. apply HRS.
Qed.

Section Sorted_listings.

Variable Array_sort : forall A : Type, (A -> A -> Z) -> list A -> list A.
Hypothesis Array_sort_sorts : sorts Array_sort.


(** X24. [GET /orders] answers with every stored order once per row, in
    the order asked for: not decreasing in the attribute that [sort]
    names, a [null] amount or weight counting as 0. *)
Theorem orders_listed (sort : option order_attribute) (st : store) :
  exists l,
    get_orders Array_sort sort st
    = Json (JArr (map (fun o => JObj (Order.toJSON o)) l)) /\
    Permutation (Order.rows (orders st)) l /\
    StronglySorted (order_le sort) l.
Proof.
  destruct (Array_sort_sorts _ (by_attribute (order_lt sort))
              (Order.rows (orders st))
              (by_attribute_consistent _ (order_lt_strict_weak sort)))
    as [Hp Hs].
  eexists. split; [reflexivity|]. split; [exact Hp|].
  eapply StronglySorted_weaken; [|exact Hs].
  intros a b. apply order_lt_le.
Qed.

End Sorted_listings.


Lemma orders_listed_witness :
  exists l,
    get_orders Insertion.sort (Some Order_total_amount)
               (run Decimal.Joi_number Decimal.parseInt session ledger)
    = Json (JArr (map (fun o => JObj (Order.toJSON o)) l)) /\
    Permutation
      (Order.rows (orders (run Decimal.Joi_number Decimal.parseInt
                               session ledger))) l /\
    StronglySorted (order_le (Some Order_total_amount)) l.
Proof.
  apply (orders_listed Insertion.sort insertion_sorts
           (Some Order_total_amount)
           (run Decimal.Joi_number Decimal.parseInt session ledger)).
Defined.
